(** * Pawnote backend: the AI chat endpoint of [backend/server.py]

    A shallow embedding of [chat_with_ai] (POST /api/chat) together with
    the pieces of the data model it touches, and the properties of the
    chat-context assembly and turn-persistence protocol.

    Modelling conventions.
    - A Python [str] is a [string]; a character is its code point, so the
      model covers the code points below 256.
    - [Optional[T]] is [option T]; Python truthiness is written out
      ([truthy], [truthy_opt]).
    - The Mongo collections are lists in insertion order; [sort] is a
      stable insertion sort on [created_at] and [to_list n] keeps the
      first [n] documents of the cursor. MongoDB promises no order
      among documents of equal [created_at]: the order the model gives
      them is its own choice, and what is proved of the order of turns
      is proved for turns of distinct times, or for every ascending
      arrangement.
    - The handler is a function in a state-and-exception monad over
      [World]; an exception keeps the state reached so far, as a Python
      [raise] does.
    - The hosted model, [uuid.uuid4], [datetime.utcnow] and the rendering
      of a Python [float] are the environment ([Env]): arbitrary but
      fixed functions.
    - Inserts into the store do not fail; logging and the HTTP layer
      (routing, request validation) are left out. *)

From Stdlib Require Import List String Ascii Bool ZArith Arith Lia DecimalString
  Permutation.
Import ListNotations.
Local Open Scope list_scope.
Local Open Scope string_scope.

(** ** Python strings *)

Definition nl : string := String "010"%char EmptyString.
Definition dquote : string := String "034"%char EmptyString.

(** [bool(s)] for a [str]. *)
Definition truthy (s : string) : bool :=
  match s with
  | EmptyString => false
  | String _ _ => true
  end.

(** [bool(o)] for an [Optional[str]]. *)
Definition truthy_opt (o : option string) : bool :=
  match o with
  | Some s => truthy s
  | None => false
  end.

(** [a or b] for a [str] [a]. *)
Definition or_else (a b : string) : string :=
  if truthy a then a else b.

(** [c.isspace()] on the code points below 256: U+0009..U+000D,
    U+001C..U+0020, U+0085 and U+00A0. *)
Definition isspace (c : ascii) : bool :=
  let n := nat_of_ascii c in
  ((9 <=? n)%nat && (n <=? 13)%nat) || ((28 <=? n)%nat && (n <=? 32)%nat)
  || (n =? 133)%nat || (n =? 160)%nat.

Fixpoint lstrip (s : string) : string :=
  match s with
  | EmptyString => EmptyString
  | String c t => if isspace c then lstrip t else s
  end.

Fixpoint rstrip (s : string) : string :=
  match s with
  | EmptyString => EmptyString
  | String c t =>
      match rstrip t with
      | EmptyString => if isspace c then EmptyString else String c EmptyString
      | t' => String c t'
      end
  end.

(** [s.strip()]. *)
Definition strip (s : string) : string := rstrip (lstrip s).

(** [sep in s] for a one-character [sep]. *)
Fixpoint contains (sep : ascii) (s : string) : bool :=
  match s with
  | EmptyString => false
  | String c t => Ascii.eqb c sep || contains sep t
  end.

(** [s.split(sep)] for a one-character [sep]: every separator cuts. *)
Fixpoint split (sep : ascii) (s : string) : list string :=
  match s with
  | EmptyString => [EmptyString]
  | String c t =>
      if Ascii.eqb c sep then EmptyString :: split sep t
      else match split sep t with
           | h :: r => String c h :: r
           | [] => [String c EmptyString]
           end
  end.

(** [l[-n:]] for [n > 0]. *)
Definition last_n {A : Type} (n : nat) (l : list A) : list A :=
  skipn (List.length l - n) l.

(** ** Data model *)

Record ChatMessage := mkChatMessage {
  id : string;
  session_id : string;
  role : string;
  content : string;
  image : option string;
  pet_id : option string;
  created_at : Z
}.

Record ChatRequest := mkChatRequest {
  req_session_id : string;
  req_message : string;
  req_image : option string;
  req_pet_id : option string
}.

(** The messages of [emergentintegrations.llm.chat]. *)
Record FileContent := mkFileContent {
  content_type : string;
  file_content_base64 : string
}.

Record UserMessage := mkUserMessage {
  text : string;
  file_contents : list FileContent
}.

(** The per-request provider session: its configuration and the
    exchanges made through it so far. *)
Record LlmChat := mkLlmChat {
  api_key : string;
  chat_session_id : string;
  system_message : string;
  provider : string;
  model : string;
  messages : list (UserMessage * string)
}.

(** The session after one more exchange. *)
Definition remember (c : LlmChat) (um : UserMessage) (reply : string) : LlmChat :=
  mkLlmChat (api_key c) (chat_session_id c) (system_message c) (provider c)
            (model c) (messages c ++ [(um, reply)])%list.

Definition with_model (c : LlmChat) (p m : string) : LlmChat :=
  mkLlmChat (api_key c) (chat_session_id c) (system_message c) p m (messages c).

(** ** Environment *)

Class Env := {
  (** Python's [float], with [bool(x)] and the text an f-string gives it. *)
  float : Type;
  float_truthy : float -> bool;
  float_str : float -> string;
  (** The module-level credential. *)
  EMERGENT_LLM_KEY : string;
  (** The hosted model: the reply to a message sent through a session,
      or [inl s] when the call raises an exception [e] with [str(e) = s]. *)
  complete : LlmChat -> UserMessage -> string + string;
  (** The values of the [n]-th call of [uuid.uuid4] and [datetime.utcnow]. *)
  uuid4 : nat -> string;
  utcnow : nat -> Z
}.

(** ** Exceptions and results *)

(** An exception other than [HTTPException], known by its [str(e)]. *)
Record PyException := mkPyException { str : string }.

Record HTTPException := mkHTTPException {
  status_code : Z;
  detail : string
}.

Inductive Result (X A : Type) : Type :=
| Ok (a : A)
| Raise (e : X).
Arguments Ok {X A} a.
Arguments Raise {X A} e.

(** ** Pets, the stores and the handler monad *)

Section Model.
Context {E : Env}.

Record Pet := mkPet {
  Pet_id : string;
  name : string;
  birth_date : string;
  pet_type : string;
  custom_pet_type : option string;
  breed : option string;
  weight : option float;
  gender : option string;
  photo : option string;
  Pet_created_at : Z
}.

(** The two collections the handler uses, every call made to the hosted
    model (the session it went through and the message), and the number
    of documents built so far (the index of the next [uuid4] and
    [utcnow] values). *)
Record World := mkWorld {
  pets : list Pet;
  chat_messages : list ChatMessage;
  provider_calls : list (LlmChat * UserMessage);
  clock : nat
}.

Definition M (X A : Type) : Type := World -> Result X A * World.

Definition ret {X A : Type} (a : A) : M X A := fun w => (Ok a, w).

Definition raise {X A : Type} (e : X) : M X A := fun w => (Raise e, w).

Definition bind {X A B : Type} (m : M X A) (k : A -> M X B) : M X B :=
  fun w =>
    match m w with
    | (Ok a, w') => k a w'
    | (Raise e, w') => (Raise e, w')
    end.

(** [try: m except Exception as e: h e]. *)
Definition try_except {X Y A : Type} (m : M X A) (h : X -> M Y A) : M Y A :=
  fun w =>
    match m w with
    | (Ok a, w') => (Ok a, w')
    | (Raise e, w') => h e w'
    end.

Notation "x <- m ;; k" := (bind m (fun x => k))
  (at level 61, m at next level, right associativity).
Notation "m ;;; k" := (bind m (fun _ => k))
  (at level 61, right associativity).

(** *** The document store *)

(** [db.pets.find_one({"id": pid})]. *)
Definition find_one_pet {X : Type} (pid : string) : M X (option Pet) :=
  fun w => (Ok (find (fun p => Pet_id p =? pid) (pets w)), w).

(** [find({"session_id": sid})]. *)
Definition find_session (sid : string) (l : list ChatMessage) : list ChatMessage :=
  filter (fun m => session_id m =? sid) l.

Fixpoint insert_sorted (x : ChatMessage) (l : list ChatMessage) : list ChatMessage :=
  match l with
  | [] => [x]
  | y :: t =>
      if (created_at x <=? created_at y)%Z then x :: l
      else y :: insert_sorted x t
  end.

(** [.sort("created_at", 1)]: ascending, ties in cursor order. *)
Definition sort_created_at (l : list ChatMessage) : list ChatMessage :=
  fold_right insert_sorted [] l.

(** [.to_list(n)]. *)
Definition to_list (n : nat) (l : list ChatMessage) : list ChatMessage :=
  firstn n l.

(** [db.chat_messages.find({"session_id": sid}).sort("created_at", 1).to_list(n)]. *)
Definition fetch_history (sid : string) (n : nat) (l : list ChatMessage)
  : list ChatMessage :=
  to_list n (sort_created_at (find_session sid l)).

Definition find_chat_messages {X : Type} (sid : string) (n : nat)
  : M X (list ChatMessage) :=
  fun w => (Ok (fetch_history sid n (chat_messages w)), w).

(** [db.chat_messages.insert_one(m.dict())]. *)
Definition insert_one {X : Type} (m : ChatMessage) : M X unit :=
  fun w =>
    (Ok tt,
     mkWorld (pets w) (chat_messages w ++ [m])%list (provider_calls w) (clock w)).

(** [ChatMessage(session_id=.., role=.., content=.., image=.., pet_id=..)]:
    [id] and [created_at] come from their default factories. *)
Definition new_ChatMessage {X : Type} (sid r c : string) (img pid : option string)
  : M X ChatMessage :=
  fun w =>
    (Ok (mkChatMessage (uuid4 (clock w)) sid r c img pid (utcnow (clock w))),
     mkWorld (pets w) (chat_messages w) (provider_calls w) (S (clock w))).

(** *** The model provider *)

(** The world after some more calls to the provider. *)
Definition log_calls (w : World) (calls : list (LlmChat * UserMessage)) : World :=
  mkWorld (pets w) (chat_messages w) (provider_calls w ++ calls)%list (clock w).

(** [await chat.send_message(um)]: the call is made, then either the
    reply comes back and the session remembers the exchange, or the
    call raises. *)
Definition send_message (chat : LlmChat) (um : UserMessage)
  : M PyException (string * LlmChat) :=
  fun w =>
    match complete chat um with
    | inr reply => (Ok (reply, remember chat um reply), log_calls w [(chat, um)])
    | inl err => (Raise (mkPyException err), log_calls w [(chat, um)])
    end.

(** *** Pet context *)

(** The text an f-string gives an [Optional[str]]. *)
Definition fmt_opt (o : option string) : string :=
  match o with
  | Some s => s
  | None => "None"
  end.

(** [custom_pet_type if pet_type == "other" and custom_pet_type else pet_type]. *)
Definition pet_type_str (p : Pet) : string :=
  if (pet_type p =? "other") && truthy_opt (custom_pet_type p)
  then fmt_opt (custom_pet_type p)
  else pet_type p.

(** [f" {gender}" if gender else ""]. *)
Definition gender_str (p : Pet) : string :=
  if truthy_opt (gender p) then " " ++ fmt_opt (gender p) else EmptyString.

Definition breed_clause (p : Pet) : string :=
  if truthy_opt (breed p) then " (" ++ fmt_opt (breed p) ++ ")" else EmptyString.

Definition weight_clause (p : Pet) : string :=
  match weight p with
  | Some x =>
      if float_truthy x then ", weighing " ++ float_str x ++ " lb"
      else EmptyString
  | None => EmptyString
  end.

(** The fragment built for a pet that was found. *)
Definition render_pet_context (p : Pet) : string :=
  nl ++ nl ++ "Current pet context: " ++ name p ++ " is a" ++ gender_str p
     ++ " " ++ pet_type_str p
     ++ breed_clause p
     ++ ", born on " ++ birth_date p
     ++ weight_clause p
     ++ ".".

(** Lines 416-432: the fragment for the request's pet reference. *)
Definition pet_context {X : Type} (request : ChatRequest) : M X string :=
  match req_pet_id request with
  | Some pid =>
      if truthy pid then
        pet <- find_one_pet pid ;;
        match pet with
        | Some p => ret (render_pet_context p)
        | None => ret EmptyString
        end
      else ret EmptyString
  | None => ret EmptyString
  end.

Definition persona : string :=
  "You are Pawnote AI, a friendly and supportive pet care assistant. " ++ nl ++
  "You help pet owners with:" ++ nl ++
  "- General pet care questions and tips" ++ nl ++
  "- Understanding vet instructions" ++ nl ++
  "- Daily care routines and best practices" ++ nl ++
  "- Answering " ++ dquote ++ "Is this normal?" ++ dquote ++ " type questions" ++ nl ++
  "- Providing age-appropriate care guidance" ++ nl ++
  nl ++
  "Important guidelines:" ++ nl ++
  "- Be warm, supportive, and conversational" ++ nl ++
  "- Never diagnose medical conditions - always recommend consulting a vet for health concerns" ++ nl ++
  "- Provide practical, actionable advice" ++ nl ++
  "- Consider the pet's species, breed, and age when giving advice" ++ nl ++
  "- Keep responses concise but helpful".

Definition build_system_message (ctx : string) : string := persona ++ ctx.

(** *** The chat handler *)

Definition default_image_prompt : string :=
  "What do you see in this image? Please provide any relevant pet care advice based on what you observe.".

(** Lines 469-471: the payload taken from the request's image;
    [None] is the [IndexError] of [split(',')[1]]. *)
Definition image_data (img : string) : option string :=
  if contains ","%char img then nth_error (split ","%char img) 1
  else Some img.

(** Line 477: the text that goes out with an image. *)
Definition message_text (message : string) : string :=
  if truthy message then strip message else default_image_prompt.

(** Lines 462-464: replay of the stored turns, in list order. *)
Fixpoint replay (chat : LlmChat) (msgs : list ChatMessage) : M PyException LlmChat :=
  match msgs with
  | [] => ret chat
  | msg :: rest =>
      if role msg =? "user" then
        r <- send_message chat (mkUserMessage (content msg) []) ;;
        replay (snd r) rest
      else replay chat rest
  end.

(** Lines 467-482: the new turn. *)
Definition send_current (chat : LlmChat) (request : ChatRequest)
  : M PyException string :=
  if truthy_opt (req_image request) then
    match image_data (fmt_opt (req_image request)) with
    | Some data =>
        let image_file := mkFileContent "image/jpeg" data in
        let user_message :=
          mkUserMessage (message_text (req_message request)) [image_file] in
        r <- send_message chat user_message ;;
        ret (fst r)
    | None => raise (mkPyException "list index out of range")
    end
  else
    r <- send_message chat (mkUserMessage (req_message request) []) ;;
    ret (fst r).

(** Lines 455-502: the body of the [try]. *)
Definition chat_body (request : ChatRequest) (sysmsg : string)
  (history : list ChatMessage) : M PyException string :=
  let chat :=
    with_model (mkLlmChat EMERGENT_LLM_KEY (req_session_id request) sysmsg
                          EmptyString EmptyString [])
               "openai" "gpt-4o" in
  chat' <- replay chat (last_n 10 history) ;;
  response <- send_current chat' request ;;
  user_msg <- new_ChatMessage (req_session_id request) "user"
                (or_else (req_message request) "[Image]")
                (req_image request) (req_pet_id request) ;;
  insert_one user_msg ;;;
  assistant_msg <- new_ChatMessage (req_session_id request) "assistant"
                     response None (req_pet_id request) ;;
  insert_one assistant_msg ;;;
  ret response.

(** POST /api/chat. *)
Definition chat_with_ai (request : ChatRequest) : M HTTPException string :=
  if negb (truthy EMERGENT_LLM_KEY) then
    raise (mkHTTPException 500 "AI service not configured")
  else
    ctx <- pet_context request ;;
    history <- find_chat_messages (req_session_id request) 20 ;;
    try_except (chat_body request (build_system_message ctx) history)
      (fun e => raise (mkHTTPException 500 ("AI service error: " ++ str e))).

End Model.

(** ** Vocabulary of the properties *)

Section Vocabulary.
Context {E : Env}.

(** Did this call to the provider return a reply? *)
Definition call_ok (c : LlmChat * UserMessage) : bool :=
  match complete (fst c) (snd c) with
  | inr _ => true
  | inl _ => false
  end.

(** The messages the replay loop sends for a list of stored turns. *)
Definition replay_plan (msgs : list ChatMessage) : list UserMessage :=
  map (fun m => mkUserMessage (content m) [])
      (filter (fun m => role m =? "user") msgs).

(** The message of the new turn, as [send_current] builds it. *)
Definition current_message (request : ChatRequest) : option UserMessage :=
  if truthy_opt (req_image request) then
    match image_data (fmt_opt (req_image request)) with
    | Some data =>
        Some (mkUserMessage (message_text (req_message request))
                            [mkFileContent "image/jpeg" data])
    | None => None
    end
  else Some (mkUserMessage (req_message request) []).

(** Sending messages one after the other through a session, until one
    fails: the calls made, and the session at the end or the failure. *)
Fixpoint converse (chat : LlmChat) (ums : list UserMessage)
  : list (LlmChat * UserMessage) * Result PyException LlmChat :=
  match ums with
  | [] => ([], Ok chat)
  | um :: rest =>
      match complete chat um with
      | inr reply =>
          let (calls, r) := converse (remember chat um reply) rest in
          ((chat, um) :: calls, r)
      | inl err => ([(chat, um)], Raise (mkPyException err))
      end
  end.

(** The session [chat_body] opens. *)
Definition open_chat (request : ChatRequest) (sysmsg : string) : LlmChat :=
  mkLlmChat EMERGENT_LLM_KEY (req_session_id request) sysmsg "openai" "gpt-4o" [].

(** The calls made to the provider between two states of the world. *)
Definition calls_since (w w' : World) : list (LlmChat * UserMessage) :=
  skipn (List.length (provider_calls w)) (provider_calls w').

(** The value [pet_context] computes, read off the store. *)
Definition pet_fragment (request : ChatRequest) (w : World) : string :=
  match req_pet_id request with
  | Some pid =>
      if truthy pid then
        match find (fun p => Pet_id p =? pid) (pets w) with
        | Some p => render_pet_context p
        | None => EmptyString
        end
      else EmptyString
  | None => EmptyString
  end.

(** The two documents a successful call writes. *)
Definition user_turn (request : ChatRequest) (w : World) : ChatMessage :=
  mkChatMessage (uuid4 (clock w)) (req_session_id request) "user"
                (or_else (req_message request) "[Image]")
                (req_image request) (req_pet_id request) (utcnow (clock w)).

Definition assistant_turn (request : ChatRequest) (w : World) (reply : string)
  : ChatMessage :=
  mkChatMessage (uuid4 (S (clock w))) (req_session_id request) "assistant"
                reply None (req_pet_id request) (utcnow (S (clock w))).

(** The turns of a session, oldest first. *)
Definition session_turns (sid : string) (w : World) : list ChatMessage :=
  sort_created_at (find_session sid (chat_messages w)).

(** What two histories are compared on: the role and the content of a
    turn. *)
Definition role_content (m : ChatMessage) : string * string :=
  (role m, content m).

(** A stored turn without its image. *)
Definition forget_image (m : ChatMessage) : ChatMessage :=
  mkChatMessage (id m) (session_id m) (role m) (content m) None (pet_id m)
                (created_at m).

(** [l] is in ascending [created_at] order. *)
Fixpoint ascending (l : list ChatMessage) : Prop :=
  match l with
  | [] => True
  | x :: t => Forall (fun y => (created_at x <= created_at y)%Z) t /\ ascending t
  end.

(** [s] is made of the last elements of [l]. *)
Definition is_suffix {A : Type} (s l : list A) : Prop :=
  exists pre, l = (pre ++ s)%list.

(** The two ways a configured call ends. *)
Inductive Outcome (request : ChatRequest) (w : World) (um : UserMessage)
  : Result HTTPException string * World -> Prop :=
| Replied (pre : list (LlmChat * UserMessage)) (chat' : LlmChat) (reply : string) :
    map snd pre =
      replay_plan (last_n 10 (fetch_history (req_session_id request) 20
                                            (chat_messages w))) ->
    forallb call_ok pre = true ->
    complete chat' um = inr reply ->
    Outcome request w um
      (Ok reply,
       mkWorld (pets w)
               (chat_messages w
                  ++ [user_turn request w; assistant_turn request w reply])
               (provider_calls w ++ pre ++ [(chat', um)])
               (S (S (clock w))))
| Failed (calls : list (LlmChat * UserMessage)) (err : string) (k : nat) :
    calls <> [] ->
    forallb call_ok calls = false ->
    map snd calls =
      firstn k (replay_plan (last_n 10 (fetch_history (req_session_id request) 20
                                                      (chat_messages w)))
                ++ [um]) ->
    Outcome request w um
      (Raise (mkHTTPException 500 ("AI service error: " ++ err)),
       log_calls w calls).

End Vocabulary.

(** ** The other resources *)

(** The documents of the checklists, vet visits and reminders
    collections, as [Model(...).dict()] writes them, and the request
    bodies of their routes. *)
Record ChecklistItem := mkChecklistItem {
  item_id : string;
  item_text : string;
  completed : bool;
  due_time : option string
}.

Record Checklist := mkChecklist {
  cl_id : string;
  cl_pet_id : string;
  cl_title : string;
  cl_category : string;
  items : list ChecklistItem;
  cl_is_recurring : bool;
  recurrence_pattern : option string;
  cl_created_at : Z;
  updated_at : Z
}.

Record VetVisit := mkVetVisit {
  visit_id : string;
  visit_pet_id : string;
  visit_date : string;
  vet_name : option string;
  reason : string;
  notes : option string;
  instructions : list string;
  follow_up_date : option string;
  visit_created_at : Z
}.

Record VetVisitCreate := mkVetVisitCreate {
  vc_pet_id : string;
  vc_visit_date : string;
  vc_vet_name : option string;
  vc_reason : string;
  vc_notes : option string;
  vc_instructions : list string;
  vc_follow_up_date : option string
}.

Record Reminder := mkReminder {
  rem_id : string;
  rem_pet_id : string;
  rem_title : string;
  rem_description : option string;
  reminder_time : string;
  reminder_date : option string;
  rem_is_recurring : bool;
  recurrence_days : list Z;
  rem_category : string;
  is_active : bool;
  rem_created_at : Z
}.

Record ReminderCreate := mkReminderCreate {
  rc_pet_id : string;
  rc_title : string;
  rc_description : option string;
  rc_reminder_time : string;
  rc_reminder_date : option string;
  rc_is_recurring : bool;
  rc_recurrence_days : list Z;
  rc_category : string
}.

(** One entry of GET /api/chat/history. *)
Record HistoryEntry := mkHistoryEntry {
  h_role : string;
  h_content : string;
  h_created_at : Z
}.

(** [update_one]: the first document that matches is rewritten. *)
Fixpoint update_first {A : Type} (p : A -> bool) (f : A -> A) (l : list A)
  : list A :=
  match l with
  | [] => []
  | x :: t => if p x then f x :: t else x :: update_first p f t
  end.

(** [delete_one]: the first document that matches is removed. *)
Fixpoint delete_first {A : Type} (p : A -> bool) (l : list A) : list A :=
  match l with
  | [] => []
  | x :: t => if p x then t else x :: delete_first p t
  end.

(** [delete_many]: every document that matches is removed. *)
Definition delete_all {A : Type} (p : A -> bool) (l : list A) : list A :=
  filter (fun x => negb (p x)) l.

(** [deleted_count] of a [delete_one]. *)
Definition deleted_count {A : Type} (p : A -> bool) (l : list A) : nat :=
  match find p l with
  | Some _ => 1
  | None => 0
  end.

(** A field of a [$set] built from the values that are not [None]. *)
Definition merge {A : Type} (new : option A) (old : A) : A :=
  match new with
  | Some v => v
  | None => old
  end.

Definition merge_opt {A : Type} (new old : option A) : option A :=
  match new with
  | Some v => Some v
  | None => old
  end.

Definition is_some {A : Type} (o : option A) : bool :=
  match o with
  | Some _ => true
  | None => false
  end.

Section Routes.
Context {E : Env}.

Record PetCreate := mkPetCreate {
  pc_name : string;
  pc_birth_date : string;
  pc_pet_type : string;
  pc_custom_pet_type : option string;
  pc_breed : option string;
  pc_weight : option float;
  pc_gender : option string;
  pc_photo : option string
}.

Record PetUpdate := mkPetUpdate {
  pu_name : option string;
  pu_birth_date : option string;
  pu_pet_type : option string;
  pu_custom_pet_type : option string;
  pu_breed : option string;
  pu_weight : option float;
  pu_gender : option string;
  pu_photo : option string
}.

Notation "x <- m ;; k" := (bind m (fun x => k))
  (at level 61, m at next level, right associativity).
Notation "m ;;; k" := (bind m (fun _ => k))
  (at level 61, right associativity).

(** *** Chat history *)

(** GET /api/chat/history/{session_id}: [limit] is the (non-negative)
    length handed to [to_list]. *)
Definition get_chat_history {X : Type} (sid : string) (limit : nat)
  : M X (list HistoryEntry) :=
  msgs <- find_chat_messages sid limit ;;
  ret (map (fun m => mkHistoryEntry (role m) (content m) (created_at m)) msgs).

(** DELETE /api/chat/history/{session_id}. *)
Definition clear_chat_history {X : Type} (sid : string) : M X string :=
  fun w =>
    (Ok "Chat history cleared",
     mkWorld (pets w)
             (delete_all (fun m => session_id m =? sid) (chat_messages w))
             (provider_calls w) (clock w)).

(** *** Pets *)

Definition set_pets (w : World) (ps : list Pet) : World :=
  mkWorld ps (chat_messages w) (provider_calls w) (clock w).

(** The [Pet] built from [pet.dict()]: [id] and [created_at] come from
    their default factories. *)
Definition new_Pet {X : Type} (c : PetCreate) : M X Pet :=
  fun w =>
    (Ok (mkPet (uuid4 (clock w)) (pc_name c) (pc_birth_date c) (pc_pet_type c)
               (pc_custom_pet_type c) (pc_breed c) (pc_weight c) (pc_gender c)
               (pc_photo c) (utcnow (clock w))),
     mkWorld (pets w) (chat_messages w) (provider_calls w) (S (clock w))).

(** POST /api/pets. *)
Definition create_pet {X : Type} (c : PetCreate) : M X Pet :=
  pet_obj <- new_Pet c ;;
  (fun w => (Ok tt, set_pets w (pets w ++ [pet_obj])%list)) ;;;
  ret pet_obj.

(** GET /api/pets/{pet_id}. *)
Definition get_pet (pid : string) : M HTTPException Pet :=
  pet <- find_one_pet pid ;;
  match pet with
  | Some p => ret p
  | None => raise (mkHTTPException 404 "Pet not found")
  end.

(** Is the dictionary of the values that are not [None] non-empty? *)
Definition update_data_nonempty (u : PetUpdate) : bool :=
  is_some (pu_name u) || is_some (pu_birth_date u) || is_some (pu_pet_type u)
  || is_some (pu_custom_pet_type u) || is_some (pu_breed u)
  || is_some (pu_weight u) || is_some (pu_gender u) || is_some (pu_photo u).

(** [$set] with that dictionary. *)
Definition set_pet_fields (u : PetUpdate) (p : Pet) : Pet :=
  mkPet (Pet_id p)
        (merge (pu_name u) (name p))
        (merge (pu_birth_date u) (birth_date p))
        (merge (pu_pet_type u) (pet_type p))
        (merge_opt (pu_custom_pet_type u) (custom_pet_type p))
        (merge_opt (pu_breed u) (breed p))
        (merge_opt (pu_weight u) (weight p))
        (merge_opt (pu_gender u) (gender p))
        (merge_opt (pu_photo u) (photo p))
        (Pet_created_at p).

(** PUT /api/pets/{pet_id}. Finding nothing after the update would be
    an unhandled error, reported as a plain 500. *)
Definition update_pet (pid : string) (u : PetUpdate) : M HTTPException Pet :=
  existing <- find_one_pet pid ;;
  match existing with
  | None => raise (mkHTTPException 404 "Pet not found")
  | Some _ =>
      (if update_data_nonempty u then
         fun w =>
           (Ok tt,
            set_pets w (update_first (fun p => Pet_id p =? pid)
                                     (set_pet_fields u) (pets w)))
       else ret tt) ;;;
      updated <- find_one_pet pid ;;
      match updated with
      | Some p => ret p
      | None => raise (mkHTTPException 500 "Internal Server Error")
      end
  end.

(** *** The whole database *)

Record Database := mkDatabase {
  core : World;
  checklists : list Checklist;
  vet_visits : list VetVisit;
  reminders : list Reminder
}.

Definition DB (X A : Type) : Type := Database -> Result X A * Database.

(** A handler of the pets and chat collections, run on the database. *)
Definition lift {X A : Type} (m : M X A) : DB X A :=
  fun d =>
    let (r, w') := m (core d) in
    (r, mkDatabase w' (checklists d) (vet_visits d) (reminders d)).

Definition dret {X A : Type} (a : A) : DB X A := fun d => (Ok a, d).

Definition draise {X A : Type} (e : X) : DB X A := fun d => (Raise e, d).

Definition dbind {X A B : Type} (m : DB X A) (k : A -> DB X B) : DB X B :=
  fun d =>
    match m d with
    | (Ok a, d') => k a d'
    | (Raise e, d') => (Raise e, d')
    end.

Notation "x <~ m ;; k" := (dbind m (fun x => k))
  (at level 61, m at next level, right associativity).
Notation "m ;;~ k" := (dbind m (fun _ => k))
  (at level 61, right associativity).

Definition set_checklists (d : Database) (l : list Checklist) : Database :=
  mkDatabase (core d) l (vet_visits d) (reminders d).

Definition set_vet_visits (d : Database) (l : list VetVisit) : Database :=
  mkDatabase (core d) (checklists d) l (reminders d).

Definition set_reminders (d : Database) (l : list Reminder) : Database :=
  mkDatabase (core d) (checklists d) (vet_visits d) l.

(** The index of the next [uuid4] and [utcnow] values, which is used up. *)
Definition fresh {X : Type} : DB X nat :=
  lift (fun w =>
          (Ok (clock w),
           mkWorld (pets w) (chat_messages w) (provider_calls w) (S (clock w)))).

(** DELETE /api/pets/{pet_id}. *)
Definition delete_pet (pid : string) : DB HTTPException string :=
  count <~ lift (fun w =>
                   (Ok (deleted_count (fun p => Pet_id p =? pid) (pets w)),
                    set_pets w (delete_first (fun p => Pet_id p =? pid) (pets w)))) ;;
  if (count =? 0)%nat then draise (mkHTTPException 404 "Pet not found")
  else
    (fun d => (Ok tt, set_checklists d
                 (delete_all (fun c => cl_pet_id c =? pid) (checklists d)))) ;;~
    (fun d => (Ok tt, set_vet_visits d
                 (delete_all (fun v => visit_pet_id v =? pid) (vet_visits d)))) ;;~
    (fun d => (Ok tt, set_reminders d
                 (delete_all (fun r => rem_pet_id r =? pid) (reminders d)))) ;;~
    dret "Pet deleted successfully".

(** *** Reminders *)

Definition find_one_reminder {X : Type} (rid : string) : DB X (option Reminder) :=
  fun d => (Ok (find (fun r => rem_id r =? rid) (reminders d)), d).

(** POST /api/reminders: a new reminder is active. *)
Definition create_reminder {X : Type} (r : ReminderCreate) : DB X Reminder :=
  n <~ fresh ;;
  let reminder_obj :=
    mkReminder (uuid4 n) (rc_pet_id r) (rc_title r) (rc_description r)
               (rc_reminder_time r) (rc_reminder_date r) (rc_is_recurring r)
               (rc_recurrence_days r) (rc_category r) true (utcnow n) in
  (fun d => (Ok tt, set_reminders d (reminders d ++ [reminder_obj])%list)) ;;~
  dret reminder_obj.

(** The part of a query added by [if pet_id: query["pet_id"] = pet_id]. *)
Definition pet_query (pet : option string) (p : string) : bool :=
  if truthy_opt pet then p =? fmt_opt pet else true.

(** GET /api/reminders. *)
Definition get_reminders {X : Type} (pet : option string) (active : bool)
  : DB X (list Reminder) :=
  fun d =>
    (Ok (firstn 100
           (filter (fun r => Bool.eqb (is_active r) active
                             && pet_query pet (rem_pet_id r))
                   (reminders d))),
     d).

(** [$set] with [update.dict()]: every field of the body is written. *)
Definition set_reminder_fields (u : ReminderCreate) (r : Reminder) : Reminder :=
  mkReminder (rem_id r) (rc_pet_id u) (rc_title u) (rc_description u)
             (rc_reminder_time u) (rc_reminder_date u) (rc_is_recurring u)
             (rc_recurrence_days u) (rc_category u) (is_active r)
             (rem_created_at r).

(** PUT /api/reminders/{reminder_id}. *)
Definition update_reminder (rid : string) (u : ReminderCreate)
  : DB HTTPException Reminder :=
  existing <~ find_one_reminder rid ;;
  match existing with
  | None => draise (mkHTTPException 404 "Reminder not found")
  | Some _ =>
      (fun d =>
         (Ok tt,
          set_reminders d (update_first (fun r => rem_id r =? rid)
                                        (set_reminder_fields u) (reminders d)))) ;;~
      updated <~ find_one_reminder rid ;;
      match updated with
      | Some r => dret r
      | None => draise (mkHTTPException 500 "Internal Server Error")
      end
  end.

Definition set_is_active (b : bool) (r : Reminder) : Reminder :=
  mkReminder (rem_id r) (rem_pet_id r) (rem_title r) (rem_description r)
             (reminder_time r) (reminder_date r) (rem_is_recurring r)
             (recurrence_days r) (rem_category r) b (rem_created_at r).

(** PATCH /api/reminders/{reminder_id}/toggle. *)
Definition toggle_reminder (rid : string) : DB HTTPException bool :=
  reminder <~ find_one_reminder rid ;;
  match reminder with
  | None => draise (mkHTTPException 404 "Reminder not found")
  | Some r =>
      let new_status := negb (is_active r) in
      (fun d =>
         (Ok tt,
          set_reminders d (update_first (fun r => rem_id r =? rid)
                                        (set_is_active new_status)
                                        (reminders d)))) ;;~
      dret new_status
  end.

(** DELETE /api/reminders/{reminder_id}. *)
Definition delete_reminder (rid : string) : DB HTTPException string :=
  count <~ (fun d =>
              (Ok (deleted_count (fun r => rem_id r =? rid) (reminders d)),
               set_reminders d (delete_first (fun r => rem_id r =? rid)
                                             (reminders d)))) ;;
  if (count =? 0)%nat then draise (mkHTTPException 404 "Reminder not found")
  else dret "Reminder deleted".

(** *** Vet visits *)

Definition find_one_vet_visit {X : Type} (vid : string) : DB X (option VetVisit) :=
  fun d => (Ok (find (fun v => visit_id v =? vid) (vet_visits d)), d).


Fixpoint insert_by_date (x : VetVisit) (l : list VetVisit) : list VetVisit :=
  match l with
  | [] => [x]
  | y :: t =>
      if (visit_date y <=? visit_date x) then x :: l
      else y :: insert_by_date x t
  end.

(** [.sort("visit_date", -1)]: descending, strings compared code point
    by code point, ties in cursor order. *)
Definition sort_visit_date_desc (l : list VetVisit) : list VetVisit :=
  fold_right insert_by_date [] l.

(** GET /api/vet-visits. *)
Definition get_vet_visits {X : Type} (pet : option string) : DB X (list VetVisit) :=
  fun d =>
    (Ok (firstn 100
           (sort_visit_date_desc
              (filter (fun v => pet_query pet (visit_pet_id v)) (vet_visits d)))),
     d).

(** GET /api/vet-visits/{visit_id}. *)
Definition get_vet_visit (vid : string) : DB HTTPException VetVisit :=
  visit <~ find_one_vet_visit vid ;;
  match visit with
  | Some v => dret v
  | None => draise (mkHTTPException 404 "Vet visit not found")
  end.

Definition set_visit_fields (u : VetVisitCreate) (v : VetVisit) : VetVisit :=
  mkVetVisit (visit_id v) (vc_pet_id u) (vc_visit_date u) (vc_vet_name u)
             (vc_reason u) (vc_notes u) (vc_instructions u)
             (vc_follow_up_date u) (visit_created_at v).

(** PUT /api/vet-visits/{visit_id}. *)
Definition update_vet_visit (vid : string) (u : VetVisitCreate)
  : DB HTTPException VetVisit :=
  existing <~ find_one_vet_visit vid ;;
  match existing with
  | None => draise (mkHTTPException 404 "Vet visit not found")
  | Some _ =>
      (fun d =>
         (Ok tt,
          set_vet_visits d (update_first (fun v => visit_id v =? vid)
                                         (set_visit_fields u) (vet_visits d)))) ;;~
      updated <~ find_one_vet_visit vid ;;
      match updated with
      | Some v => dret v
      | None => draise (mkHTTPException 500 "Internal Server Error")
      end
  end.

(** DELETE /api/vet-visits/{visit_id}. *)
Definition delete_vet_visit (vid : string) : DB HTTPException string :=
  count <~ (fun d =>
              (Ok (deleted_count (fun v => visit_id v =? vid) (vet_visits d)),
               set_vet_visits d (delete_first (fun v => visit_id v =? vid)
                                              (vet_visits d)))) ;;
  if (count =? 0)%nat then draise (mkHTTPException 404 "Vet visit not found")
  else dret "Vet visit deleted".

(** [ChecklistItem(text=instruction).dict()] for every instruction, in
    order. *)
Fixpoint items_of_instructions {X : Type} (l : list string)
  : DB X (list ChecklistItem) :=
  match l with
  | [] => dret []
  | instruction :: rest =>
      n <~ fresh ;;
      others <~ items_of_instructions rest ;;
      dret (mkChecklistItem (uuid4 n) instruction false None :: others)
  end.

(** POST /api/vet-visits/{visit_id}/to-checklist. *)
Definition convert_vet_to_checklist (vid : string) : DB HTTPException Checklist :=
  visit <~ find_one_vet_visit vid ;;
  match visit with
  | None => draise (mkHTTPException 404 "Vet visit not found")
  | Some visit_obj =>
      match instructions visit_obj with
      | [] => draise (mkHTTPException 400 "No instructions to convert")
      | _ :: _ =>
          its <~ items_of_instructions (instructions visit_obj) ;;
          n <~ fresh ;;
          m <~ fresh ;;
          let checklist :=
            mkChecklist (uuid4 n) (visit_pet_id visit_obj)
                        ("Vet Instructions - " ++ reason visit_obj) "vet" its
                        false None (utcnow n) (utcnow m) in
          (fun d => (Ok tt, set_checklists d (checklists d ++ [checklist])%list)) ;;~
          dret checklist
      end
  end.

(** *** Checklists *)

Definition find_one_checklist {X : Type} (cid : string) : DB X (option Checklist) :=
  fun d => (Ok (find (fun c => cl_id c =? cid) (checklists d)), d).

(** The part of a query added by [if category: query["category"] = category]. *)
Definition category_query (category : option string) (c : string) : bool :=
  if truthy_opt category then c =? fmt_opt category else true.

(** GET /api/checklists. *)
Definition get_checklists {X : Type} (pet category : option string)
  : DB X (list Checklist) :=
  fun d =>
    (Ok (firstn 100
           (filter (fun c => pet_query pet (cl_pet_id c)
                             && category_query category (cl_category c))
                   (checklists d))),
     d).

(** GET /api/checklists/{checklist_id}. *)
Definition get_checklist (cid : string) : DB HTTPException Checklist :=
  checklist <~ find_one_checklist cid ;;
  match checklist with
  | Some c => dret c
  | None => draise (mkHTTPException 404 "Checklist not found")
  end.

Definition set_completed (b : bool) (it : ChecklistItem) : ChecklistItem :=
  mkChecklistItem (item_id it) (item_text it) b (due_time it).

Definition set_items (its : list ChecklistItem) (t : Z) (c : Checklist) : Checklist :=
  mkChecklist (cl_id c) (cl_pet_id c) (cl_title c) (cl_category c) its
              (cl_is_recurring c) (recurrence_pattern c) (cl_created_at c) t.

(** PATCH /api/checklists/{checklist_id}/items/{item_id}: the loop stops
    at the first item with that id. *)
Definition toggle_checklist_item (cid iid : string) (b : bool)
  : DB HTTPException bool :=
  checklist <~ find_one_checklist cid ;;
  match checklist with
  | None => draise (mkHTTPException 404 "Checklist not found")
  | Some c =>
      let its := update_first (fun it => item_id it =? iid) (set_completed b)
                              (items c) in
      n <~ fresh ;;
      (fun d =>
         (Ok tt,
          set_checklists d (update_first (fun c => cl_id c =? cid)
                                         (set_items its (utcnow n))
                                         (checklists d)))) ;;~
      dret true
  end.

(** DELETE /api/checklists/{checklist_id}. *)
Definition delete_checklist (cid : string) : DB HTTPException string :=
  count <~ (fun d =>
              (Ok (deleted_count (fun c => cl_id c =? cid) (checklists d)),
               set_checklists d (delete_first (fun c => cl_id c =? cid)
                                              (checklists d)))) ;;
  if (count =? 0)%nat then draise (mkHTTPException 404 "Checklist not found")
  else dret "Checklist deleted".

(** *** Vocabulary of the route properties *)

(** The entry GET /api/chat/history shows for a stored turn. *)
Definition entry_of (m : ChatMessage) : HistoryEntry :=
  mkHistoryEntry (role m) (content m) (created_at m).

(** A list of times that never goes back. *)
Fixpoint nondecreasing (l : list Z) : Prop :=
  match l with
  | [] => True
  | x :: t => Forall (fun y => (x <= y)%Z) t /\ nondecreasing t
  end.

(** The database after [n] more values were drawn from [uuid4] and
    [utcnow]. *)
Definition advance (d : Database) (n : nat) : Database :=
  mkDatabase (mkWorld (pets (core d)) (chat_messages (core d))
                      (provider_calls (core d)) (n + clock (core d)))
             (checklists d) (vet_visits d) (reminders d).

(** The items made from instructions, with ids drawn from index [k] on. *)
Definition items_from (k : nat) (l : list string) : list ChecklistItem :=
  map (fun p => mkChecklistItem (uuid4 (fst p)) (snd p) false None)
      (combine (seq k (List.length l)) l).

(** A list of dates that never goes forward. *)
Fixpoint nonincreasing (l : list string) : Prop :=
  match l with
  | [] => True
  | x :: t => Forall (fun y => (y <=? x) = true) t /\ nonincreasing t
  end.

End Routes.

(** ** A concrete environment and concrete requests *)

Module Demo.

(** Weights are whole pounds; the provider refuses the text [fail] and
    echoes every other text. *)
#[local] Instance demo_env : Env := {|
  float := Z;
  float_truthy := fun z => negb (z =? 0)%Z;
  float_str := fun z => NilZero.string_of_int (Z.to_int z) ++ ".0";
  EMERGENT_LLM_KEY := "sk-demo";
  complete := fun _ um =>
    if text um =? "fail" then inl "provider down"
    else inr ("re: " ++ text um);
  uuid4 := fun n => "uuid-" ++ NilZero.string_of_uint (Nat.to_uint n);
  utcnow := fun n => (1000 + Z.of_nat n)%Z
|}.

Definition rex : Pet :=
  mkPet "p1" "Rex" "2020-01-01" "dog" None None None None None 1.

Definition bun : Pet :=
  mkPet "p2" "Bun" "2021-05-05" "other" (Some "Rabbit") (Some "Lop")
        (Some 4%Z) (Some "female") None 2.

(** The [n]-th stored turn of session [s]: a user turn written at time [n]. *)
Definition turn (n : nat) : ChatMessage :=
  mkChatMessage ("m" ++ NilZero.string_of_uint (Nat.to_uint n)) "s" "user"
                ("t" ++ NilZero.string_of_uint (Nat.to_uint n))
                None None (Z.of_nat n).

Definition empty_world : World := mkWorld [rex; bun] [] [] 0.

(** Session [s] holds 21 user turns, written at times 1 to 21. *)
Definition long_world : World :=
  mkWorld [rex; bun] (map turn (seq 1 21)) [] 0.

Definition png : string := "data:image/png;base64,AAAA".

(** A stored user turn with a picture, and the worlds that hold it with
    and without the picture. *)
Definition snapshot : ChatMessage :=
  mkChatMessage "m0" "s" "user" "look at this" (Some png) None 5.

Definition pictured_world : World := mkWorld [rex; bun] [snapshot] [] 0.

Definition plain_world : World :=
  mkWorld [rex; bun] [forget_image snapshot] [] 0.

Definition hello : ChatRequest := mkChatRequest "s" "Hello" None None.
Definition failing : ChatRequest := mkChatRequest "s" "fail" None None.
Definition blank : ChatRequest := mkChatRequest "s" " " None None.
Definition empty_text : ChatRequest := mkChatRequest "s" EmptyString None None.
Definition blank_with_image : ChatRequest := mkChatRequest "s" " " (Some png) None.
Definition about_bun : ChatRequest :=
  mkChatRequest "s" "  Is this safe? " (Some png) (Some "p2").
Definition two_commas : ChatRequest :=
  mkChatRequest "s" "look" (Some "a,b,c") None.

(** A male dog without breed or weight, a store that holds him, and a
    request about him. *)
Definition duke : Pet :=
  mkPet "p3" "Duke" "2019-09-09" "dog" None None None (Some "male") None 3.

Definition kennel : World := mkWorld [rex; bun; duke] [] [] 0.

Definition about_duke : ChatRequest := mkChatRequest "s" "Hi" None (Some "p3").

(** The words of [snapshot] stored again, in another session of
    another store, under another id, time and pet reference and without
    the picture; and a request on that session. *)
Definition retold : ChatMessage :=
  mkChatMessage "x7" "t" "user" "look at this" None (Some "p1") 99.

Definition retold_world : World := mkWorld [rex] [retold] [] 3.

Definition hello_t : ChatRequest := mkChatRequest "t" "Hello" None None.

(** The same environment without the credential, and an empty store in
    it. *)
Definition offline_env : Env := {|
  float := Z;
  float_truthy := fun z => negb (z =? 0)%Z;
  float_str := fun z => NilZero.string_of_int (Z.to_int z) ++ ".0";
  EMERGENT_LLM_KEY := EmptyString;
  complete := fun _ um => inr ("re: " ++ text um);
  uuid4 := fun n => "uuid-" ++ NilZero.string_of_uint (Nat.to_uint n);
  utcnow := fun n => (1000 + Z.of_nat n)%Z
|}.

Definition offline_world : @World offline_env := @mkWorld offline_env [] [] [] 0.

(** The provider call the request [hello] makes on an empty store. *)
Definition hello_call : LlmChat * UserMessage :=
  (mkLlmChat "sk-demo" "s" persona "openai" "gpt-4o" [],
   mkUserMessage "Hello" []).

(** A database with records of both pets and a chat turn about Bun. *)
Definition bun_question : ChatMessage :=
  mkChatMessage "m9" "s" "user" "Is hay enough?" None (Some "p2") 6.

Definition rex_walk : Reminder :=
  mkReminder "r1" "p1" "Walk" None "08:00" None true [1; 2; 3]%Z "walk" true 10.

Definition bun_pill : Reminder :=
  mkReminder "r2" "p2" "Pill" (Some "with food") "09:00" None true [0]%Z
             "medication" true 11.

Definition bun_checkup : VetVisit :=
  mkVetVisit "v1" "p2" "2024-03-01" (Some "Dr. Lee") "Checkup" None
             ["Trim nails"; "More hay"] None 12.

Definition rex_shots : VetVisit :=
  mkVetVisit "v2" "p1" "2024-05-10" None "Shots" None [] None 13.

Definition bun_daily : Checklist :=
  mkChecklist "c1" "p2" "Daily" "daily"
              [mkChecklistItem "i1" "Feed" false None;
               mkChecklistItem "i2" "Brush" false None]
              false None 14 14.

Definition clinic : Database :=
  mkDatabase (mkWorld [rex; bun] [bun_question] [] 0)
             [bun_daily] [bun_checkup; rex_shots] [rex_walk; bun_pill].

Definition new_cat : PetCreate :=
  mkPetCreate "Tom" "2023-02-02" "cat" None None None (Some "male") None.

Definition rename : PetUpdate :=
  mkPetUpdate (Some "Rexy") None None None None None None None.

Definition no_change : PetUpdate :=
  mkPetUpdate None None None None None None None None.

Definition evening_walk : ReminderCreate :=
  mkReminderCreate "p1" "Evening walk" None "19:00" None true [5; 6]%Z "walk".

Definition recheck : VetVisitCreate :=
  mkVetVisitCreate "p2" "2024-06-01" None "Recheck" None ["Weigh weekly"] None.


End Demo.

(** ** Properties *)

(** *** Strings *)

Lemma split_not_nil (sep : ascii) (s : string) : split sep s <> [].
Proof.
  destruct s as [|c t]; simpl; [discriminate|].
  destruct (Ascii.eqb c sep); [discriminate|].
  destruct (split sep t); discriminate.
Qed.

Lemma split_no_sep (sep : ascii) (s : string) :
  contains sep s = false -> split sep s = [s].
Proof.
  induction s as [|c t IH]; simpl; intros H; [reflexivity|].
  apply orb_false_iff in H as [Hc Ht].
  rewrite Hc, (IH Ht). reflexivity.
Qed.

Lemma split_at_first (sep : ascii) (p q : string) :
  contains sep p = false ->
  split sep (p ++ String sep q) = p :: split sep q.
Proof.
  induction p as [|c t IH]; simpl; intros H.
  - rewrite Ascii.eqb_refl. reflexivity.
  - apply orb_false_iff in H as [Hc Ht].
    rewrite Hc, (IH Ht). reflexivity.
Qed.

Lemma split_contains (sep : ascii) (s : string) :
  contains sep s = true -> exists a b r, split sep s = a :: b :: r.
Proof.
  induction s as [|c t IH]; simpl; intros H; [discriminate|].
  destruct (Ascii.eqb c sep) eqn:Hc.
  - destruct (split sep t) as [|b r] eqn:Ht.
    + exfalso. exact (split_not_nil sep t Ht).
    + exists EmptyString, b, r. reflexivity.
  - simpl in H. destruct (IH H) as (a & b & r & Hs).
    rewrite Hs. exists (String c a), b, r. reflexivity.
Qed.

Lemma image_data_total (img : string) : exists d, image_data img = Some d.
Proof.
  unfold image_data. destruct (contains ","%char img) eqn:Hc.
  - destruct (split_contains _ _ Hc) as (a & b & r & Hs).
    rewrite Hs. exists b. reflexivity.
  - exists img. reflexivity.
Qed.

Lemma or_else_truthy (a b : string) : truthy a = true -> or_else a b = a.
Proof. unfold or_else. intros ->. reflexivity. Qed.

(** *** Running the handler *)

Section Run.
Context {E : Env}.

Lemma log_calls_nil (w : World) : log_calls w [] = w.
Proof. destruct w. unfold log_calls. simpl. rewrite app_nil_r. reflexivity. Qed.

Lemma log_calls_app (w : World) (a b : list (LlmChat * UserMessage)) :
  log_calls (log_calls w a) b = log_calls w (a ++ b).
Proof. unfold log_calls. simpl. rewrite app_assoc. reflexivity. Qed.

Lemma calls_since_log (w : World) (calls : list (LlmChat * UserMessage)) (w' : World) :
  provider_calls w' = (provider_calls w ++ calls)%list ->
  calls_since w w' = calls.
Proof.
  unfold calls_since. intros ->.
  rewrite skipn_app, skipn_all, Nat.sub_diag. reflexivity.
Qed.

Lemma current_message_total (request : ChatRequest) :
  exists um, current_message request = Some um.
Proof.
  unfold current_message. destruct (truthy_opt (req_image request)).
  - destruct (image_data_total (fmt_opt (req_image request))) as [d ->].
    eexists. reflexivity.
  - eexists. reflexivity.
Qed.

Lemma pet_context_run {X : Type} (request : ChatRequest) (w : World) :
  pet_context (X := X) request w = (Ok (pet_fragment request w), w).
Proof.
  unfold pet_context, pet_fragment.
  destruct (req_pet_id request) as [pid|]; [|reflexivity].
  destruct (truthy pid); [|reflexivity].
  unfold bind, find_one_pet.
  destruct (find (fun p => Pet_id p =? pid) (pets w)); reflexivity.
Qed.

Lemma replay_run (msgs : list ChatMessage) (chat : LlmChat) (w : World) :
  replay chat msgs w =
  (snd (converse chat (replay_plan msgs)),
   log_calls w (fst (converse chat (replay_plan msgs)))).
Proof.
  revert chat w. induction msgs as [|msg rest IH]; intros chat w.
  - simpl. unfold ret. rewrite log_calls_nil. reflexivity.
  - unfold replay_plan. simpl. fold replay.
    destruct (role msg =? "user") eqn:Hr.
    + simpl. unfold bind, send_message.
      destruct (complete chat (mkUserMessage (content msg) [])) as [err|reply].
      * reflexivity.
      * simpl. rewrite IH. fold (replay_plan rest).
        destruct (converse _ (replay_plan rest)) as [calls r]. simpl.
        rewrite log_calls_app. reflexivity.
    + apply IH.
Qed.

Lemma send_current_run (request : ChatRequest) (um : UserMessage)
  (chat : LlmChat) (w : World) :
  current_message request = Some um ->
  send_current chat request w =
  match complete chat um with
  | inr reply => (Ok reply, log_calls w [(chat, um)])
  | inl err => (Raise (mkPyException err), log_calls w [(chat, um)])
  end.
Proof.
  unfold current_message, send_current.
  destruct (truthy_opt (req_image request)).
  - destruct (image_data (fmt_opt (req_image request))); [|discriminate].
    intros [= <-]. unfold bind, send_message, ret.
    destruct (complete chat _); reflexivity.
  - intros [= <-]. unfold bind, send_message, ret.
    destruct (complete chat _); reflexivity.
Qed.

(** The whole handler, as one equation. *)
Lemma chat_with_ai_run (request : ChatRequest) (um : UserMessage) (w : World) :
  truthy EMERGENT_LLM_KEY = true ->
  current_message request = Some um ->
  chat_with_ai request w =
  let chat := open_chat request (build_system_message (pet_fragment request w)) in
  let hist := fetch_history (req_session_id request) 20 (chat_messages w) in
  match converse chat (replay_plan (last_n 10 hist)) with
  | (calls, Raise e) =>
      (Raise (mkHTTPException 500 ("AI service error: " ++ str e)),
       log_calls w calls)
  | (calls, Ok chat') =>
      match complete chat' um with
      | inl err =>
          (Raise (mkHTTPException 500 ("AI service error: " ++ err)),
           log_calls w (calls ++ [(chat', um)]))
      | inr reply =>
          (Ok reply,
           mkWorld (pets w)
                   (chat_messages w
                      ++ [user_turn request w; assistant_turn request w reply])
                   (provider_calls w ++ calls ++ [(chat', um)])
                   (S (S (clock w))))
      end
  end.
Proof.
  intros Hkey Hum. unfold chat_with_ai. rewrite Hkey.
  change (negb true) with false. cbv iota.
  unfold bind at 1. cbv beta. rewrite pet_context_run.
  unfold bind at 1. unfold find_chat_messages. cbv beta iota.
  unfold try_except, chat_body. unfold bind at 1. cbv beta.
  change (with_model _ "openai" "gpt-4o")
    with (open_chat request (build_system_message (pet_fragment request w))).
  rewrite replay_run. cbv zeta.
  destruct (converse _ _) as [calls [chat'|e]]; simpl fst; simpl snd; cbv iota.
  - unfold bind at 1. cbv beta. rewrite (send_current_run _ _ _ _ Hum).
    destruct (complete chat' um) as [err|reply].
    + rewrite log_calls_app. reflexivity.
    + rewrite log_calls_app. unfold bind, new_ChatMessage, insert_one, ret.
      simpl. unfold user_turn, assistant_turn.
      rewrite <- !app_assoc. reflexivity.
  - reflexivity.
Qed.

(** *** The conversation with the provider *)

Lemma converse_ok (ums : list UserMessage) (chat chat' : LlmChat) :
  snd (converse chat ums) = Ok chat' ->
  map snd (fst (converse chat ums)) = ums /\
  forallb call_ok (fst (converse chat ums)) = true.
Proof.
  revert chat. induction ums as [|um rest IH]; intros chat; simpl.
  - intros _. split; reflexivity.
  - destruct (complete chat um) as [err|reply] eqn:Hc; [discriminate|].
    specialize (IH (remember chat um reply)).
    destruct (converse (remember chat um reply) rest) as [calls r].
    simpl in *. intros Hr. destruct (IH Hr) as [Hm Hf].
    split; [now rewrite Hm|].
    unfold call_ok at 1. simpl. rewrite Hc. exact Hf.
Qed.

Lemma converse_raise (ums : list UserMessage) (chat : LlmChat) (e : PyException) :
  snd (converse chat ums) = Raise e ->
  fst (converse chat ums) <> [] /\
  forallb call_ok (fst (converse chat ums)) = false.
Proof.
  revert chat. induction ums as [|um rest IH]; intros chat; simpl.
  - discriminate.
  - destruct (complete chat um) as [err|reply] eqn:Hc.
    + intros _. split; [discriminate|].
      simpl. unfold call_ok. simpl. rewrite Hc. reflexivity.
    + specialize (IH (remember chat um reply)).
      destruct (converse (remember chat um reply) rest) as [calls r].
      simpl in *. intros Hr. destruct (IH Hr) as [_ Hf].
      split; [discriminate|].
      rewrite Hf. apply andb_false_r.
Qed.

Lemma converse_prefix (ums : list UserMessage) (chat : LlmChat) :
  exists k, map snd (fst (converse chat ums)) = firstn k ums.
Proof.
  revert chat. induction ums as [|um rest IH]; intros chat; simpl.
  - exists 0. reflexivity.
  - destruct (complete chat um) as [err|reply].
    + exists 1. reflexivity.
    + destruct (IH (remember chat um reply)) as [k Hk].
      destruct (converse (remember chat um reply) rest) as [calls r].
      simpl in *. exists (S k). simpl. now rewrite Hk.
Qed.

(** Every session of a conversation keeps the configuration it was
    opened with. *)
Lemma converse_system_message (ums : list UserMessage) (chat : LlmChat) :
  Forall (fun c => system_message (fst c) = system_message chat)
         (fst (converse chat ums)).
Proof.
  revert chat. induction ums as [|um rest IH]; intros chat; simpl.
  - constructor.
  - destruct (complete chat um) as [err|reply].
    + repeat constructor.
    + specialize (IH (remember chat um reply)).
      destruct (converse (remember chat um reply) rest) as [calls r].
      simpl in *. constructor; [reflexivity|exact IH].
Qed.

Lemma converse_final_system_message (ums : list UserMessage)
  (chat chat' : LlmChat) :
  snd (converse chat ums) = Ok chat' ->
  system_message chat' = system_message chat.
Proof.
  revert chat. induction ums as [|um rest IH]; intros chat; simpl.
  - intros [= ->]. reflexivity.
  - destruct (complete chat um) as [err|reply]; [discriminate|].
    specialize (IH (remember chat um reply)).
    destruct (converse (remember chat um reply) rest) as [calls r].
    simpl in *. intros Hr. exact (IH Hr).
Qed.

Lemma chat_outcome (request : ChatRequest) (um : UserMessage) (w : World) :
  truthy EMERGENT_LLM_KEY = true ->
  current_message request = Some um ->
  Outcome request w um (chat_with_ai request w).
Proof.
  intros Hkey Hum. rewrite (chat_with_ai_run _ _ _ Hkey Hum). cbv zeta.
  set (chat := open_chat _ _).
  set (plan := replay_plan _).
  destruct (converse chat plan) as [calls [chat'|e]] eqn:Hcv.
  - assert (Hs : snd (converse chat plan) = Ok chat') by now rewrite Hcv.
    destruct (converse_ok _ _ _ Hs) as [Hm Hf]. rewrite Hcv in Hm, Hf.
    simpl in Hm, Hf.
    destruct (complete chat' um) as [err|reply] eqn:Hc.
    + apply Failed with (k := S (List.length plan)).
      * destruct calls; discriminate.
      * rewrite forallb_app. simpl. unfold call_ok at 2. simpl.
        rewrite Hc. rewrite Hf. reflexivity.
      * rewrite map_app, Hm. symmetry. apply firstn_all2.
        rewrite length_app. simpl. lia.
    + apply Replied; assumption.
  - assert (Hs : snd (converse chat plan) = Raise e) by now rewrite Hcv.
    destruct (converse_raise _ _ _ Hs) as [Hn Hf]. rewrite Hcv in Hn, Hf.
    simpl in Hn, Hf.
    destruct (converse_prefix plan chat) as [k Hk]. rewrite Hcv in Hk.
    simpl in Hk.
    apply Failed with (k := Nat.min k (List.length plan)); try assumption.
    rewrite Hk. fold plan.
    destruct (Nat.le_ge_cases k (List.length plan)) as [Hle|Hge].
    + rewrite Nat.min_l by exact Hle. rewrite firstn_app.
      replace (k - List.length plan) with 0 by lia.
      simpl. now rewrite app_nil_r.
    + rewrite Nat.min_r by exact Hge. rewrite firstn_app, Nat.sub_diag.
      simpl. rewrite app_nil_r. rewrite !firstn_all2; [reflexivity|lia|lia].
Qed.

End Run.

(** *** The history fetch and the replay window *)

Section Window.
Context {E : Env}.

Lemma insert_sorted_In (x y : ChatMessage) (l : list ChatMessage) :
  In y (insert_sorted x l) <-> y = x \/ In y l.
Proof.
  induction l as [|z t IH]; simpl.
  - intuition congruence.
  - destruct (created_at x <=? created_at z)%Z; simpl.
    + intuition congruence.
    + rewrite IH. intuition congruence.
Qed.

Lemma insert_sorted_ascending (x : ChatMessage) (l : list ChatMessage) :
  ascending l -> ascending (insert_sorted x l).
Proof.
  induction l as [|z t IH]; simpl; intros H.
  - split; [constructor|exact I].
  - destruct H as [Hz Ht].
    destruct (created_at x <=? created_at z)%Z eqn:Hc.
    + apply Z.leb_le in Hc. simpl. repeat split; try assumption.
      constructor; [exact Hc|].
      eapply Forall_impl; [|exact Hz]. simpl. intros; lia.
    + apply Z.leb_gt in Hc. simpl. split; [|exact (IH Ht)].
      apply Forall_forall. intros y Hy.
      apply insert_sorted_In in Hy as [->|Hy]; [lia|].
      rewrite Forall_forall in Hz. exact (Hz y Hy).
Qed.

Lemma sort_created_at_In (y : ChatMessage) (l : list ChatMessage) :
  In y (sort_created_at l) <-> In y l.
Proof.
  induction l as [|x t IH]; simpl; [tauto|].
  rewrite insert_sorted_In, IH. intuition congruence.
Qed.

Lemma sort_created_at_ascending (l : list ChatMessage) :
  ascending (sort_created_at l).
Proof.
  induction l as [|x t IH]; simpl; [exact I|].
  apply insert_sorted_ascending, IH.
Qed.

Lemma insert_sorted_length (x : ChatMessage) (l : list ChatMessage) :
  List.length (insert_sorted x l) = S (List.length l).
Proof.
  induction l as [|z t IH]; simpl; [reflexivity|].
  destruct (created_at x <=? created_at z)%Z; simpl; [reflexivity|].
  now rewrite IH.
Qed.

Lemma sort_created_at_length (l : list ChatMessage) :
  List.length (sort_created_at l) = List.length l.
Proof.
  induction l as [|x t IH]; simpl; [reflexivity|].
  now rewrite insert_sorted_length, IH.
Qed.

Lemma ascending_app (a b : list ChatMessage) :
  ascending (a ++ b) ->
  ascending a /\ ascending b /\
  forall x y, In x a -> In y b -> (created_at x <= created_at y)%Z.
Proof.
  induction a as [|z t IH]; simpl; intros H.
  - repeat split; [exact H|]. intros x y [].
  - destruct H as [Hz Ht]. destruct (IH Ht) as (Ha & Hb & Hab).
    apply Forall_app in Hz as [Hz1 Hz2].
    repeat split; try assumption.
    intros x y [<-|Hx] Hy.
    + rewrite Forall_forall in Hz2. exact (Hz2 y Hy).
    + exact (Hab x y Hx Hy).
Qed.

(** The fetch returns at most [n] documents. *)
Lemma fetch_history_length (sid : string) (n : nat) (l : list ChatMessage) :
  List.length (fetch_history sid n l) <= n.
Proof. unfold fetch_history, to_list. apply firstn_le_length. Qed.

(** They belong to the session and come in ascending [created_at] order. *)
Lemma fetch_history_ascending (sid : string) (n : nat) (l : list ChatMessage) :
  ascending (fetch_history sid n l).
Proof.
  unfold fetch_history, to_list.
  pose proof (sort_created_at_ascending (find_session sid l)) as H.
  rewrite <- (firstn_skipn n (sort_created_at (find_session sid l))) in H.
  apply ascending_app in H. tauto.
Qed.

(** They are the oldest ones: every turn of the session left out is at
    least as recent as every turn fetched. *)
Lemma fetch_history_oldest (sid : string) (n : nat) (l : list ChatMessage)
  (x y : ChatMessage) :
  In x (fetch_history sid n l) ->
  In y (skipn n (sort_created_at (find_session sid l))) ->
  (created_at x <= created_at y)%Z.
Proof.
  unfold fetch_history, to_list. intros Hx Hy.
  pose proof (sort_created_at_ascending (find_session sid l)) as H.
  rewrite <- (firstn_skipn n (sort_created_at (find_session sid l))) in H.
  apply ascending_app in H. destruct H as (_ & _ & H). exact (H x y Hx Hy).
Qed.

(** With at most [n] turns in the session the fetch returns them all. *)
Lemma fetch_history_all (sid : string) (n : nat) (l : list ChatMessage) :
  List.length (find_session sid l) <= n ->
  fetch_history sid n l = sort_created_at (find_session sid l).
Proof.
  intros H. unfold fetch_history, to_list. apply firstn_all2.
  now rewrite sort_created_at_length.
Qed.

Lemma last_n_length {A : Type} (n : nat) (l : list A) :
  List.length (last_n n l) <= n.
Proof. unfold last_n. rewrite length_skipn. lia. Qed.

Lemma last_n_suffix {A : Type} (n : nat) (l : list A) :
  is_suffix (last_n n l) l.
Proof.
  exists (firstn (List.length l - n) l). unfold last_n.
  now rewrite firstn_skipn.
Qed.

Lemma filter_suffix {A : Type} (f : A -> bool) (s l : list A) :
  is_suffix s l -> is_suffix (filter f s) (filter f l).
Proof. intros [pre ->]. exists (filter f pre). apply filter_app. Qed.

(** The replay sends at most ten messages, none of them with a file. *)
Lemma replay_plan_length (h : list ChatMessage) :
  List.length (replay_plan (last_n 10 h)) <= 10.
Proof.
  unfold replay_plan. rewrite length_map.
  etransitivity; [apply filter_length_le|apply last_n_length].
Qed.

Lemma replay_plan_text_only (msgs : list ChatMessage) :
  Forall (fun um => file_contents um = []) (replay_plan msgs).
Proof.
  unfold replay_plan. apply Forall_forall. intros um Hin.
  apply in_map_iff in Hin as (m & <- & _). reflexivity.
Qed.

(** The turns replayed are the user turns among the last ten fetched,
    in the order of the fetch. *)
Lemma replay_plan_recent_of_fetch (h : list ChatMessage) :
  replay_plan (last_n 10 h) =
    map (fun m => mkUserMessage (content m) [])
        (filter (fun m => role m =? "user") (last_n 10 h)) /\
  is_suffix (filter (fun m => role m =? "user") (last_n 10 h))
            (filter (fun m => role m =? "user") h).
Proof. split; [reflexivity|]. apply filter_suffix, last_n_suffix. Qed.

(** In a session of at most twenty turns they are the most recent user
    turns of the session. *)
Lemma replay_recent_when_short (sid : string) (w : World) :
  List.length (find_session sid (chat_messages w)) <= 20 ->
  is_suffix
    (filter (fun m => role m =? "user")
            (last_n 10 (fetch_history sid 20 (chat_messages w))))
    (filter (fun m => role m =? "user") (session_turns sid w)).
Proof.
  intros H. rewrite (fetch_history_all _ _ _ H).
  apply filter_suffix, last_n_suffix.
Qed.

End Window.

(** *** What a call leaves behind *)

Section Outcomes.
Context {E : Env}.

Lemma calls_since_same (w : World) : calls_since w w = [].
Proof. unfold calls_since. apply skipn_all. Qed.

Lemma chat_unconfigured (request : ChatRequest) (w : World) :
  truthy EMERGENT_LLM_KEY = false ->
  chat_with_ai request w =
  (Raise (mkHTTPException 500 "AI service not configured"), w).
Proof. intros H. unfold chat_with_ai. rewrite H. reflexivity. Qed.

Lemma chat_cases (request : ChatRequest) (w : World) :
  (truthy EMERGENT_LLM_KEY = false /\
   chat_with_ai request w =
   (Raise (mkHTTPException 500 "AI service not configured"), w))
  \/
  (truthy EMERGENT_LLM_KEY = true /\
   exists um, current_message request = Some um /\
              Outcome request w um (chat_with_ai request w)).
Proof.
  destruct (truthy EMERGENT_LLM_KEY) eqn:Hkey.
  - right. split; [reflexivity|].
    destruct (current_message_total request) as [um Hum].
    exists um. split; [exact Hum|]. now apply chat_outcome.
  - left. split; [reflexivity|]. now apply chat_unconfigured.
Qed.

Lemma outcome_calls (request : ChatRequest) (w : World) (um : UserMessage)
  (out : Result HTTPException string * World) :
  Outcome request w um out ->
  provider_calls (snd out) = (provider_calls w ++ calls_since w (snd out))%list /\
  exists k,
    map snd (calls_since w (snd out)) =
    firstn k (replay_plan (last_n 10 (fetch_history (req_session_id request) 20
                                                    (chat_messages w)))
              ++ [um]).
Proof.
  intros [pre chat' reply Hm Hf Hc | calls err k Hn Hf Hm]; simpl.
  - rewrite (calls_since_log w (pre ++ [(chat', um)])) by reflexivity.
    split; [reflexivity|].
    exists (S (List.length pre)). rewrite map_app, Hm.
    symmetry. apply firstn_all2. rewrite length_app, <- Hm, length_map.
    simpl. lia.
  - rewrite (calls_since_log w calls) by reflexivity.
    split; [reflexivity|]. exists k. exact Hm.
Qed.

Lemma outcome_ok (request : ChatRequest) (w : World) (um : UserMessage)
  (out : Result HTTPException string * World) (reply : string) :
  Outcome request w um out ->
  fst out = Ok reply ->
  chat_messages (snd out) =
    (chat_messages w ++ [user_turn request w; assistant_turn request w reply])%list /\
  exists pre chat',
    calls_since w (snd out) = (pre ++ [(chat', um)])%list /\
    map snd pre =
      replay_plan (last_n 10 (fetch_history (req_session_id request) 20
                                            (chat_messages w))) /\
    forallb call_ok pre = true /\
    complete chat' um = inr reply.
Proof.
  intros [pre chat' r Hm Hf Hc | calls err k Hn Hf Hm]; simpl; [|discriminate].
  intros [= ->]. split; [reflexivity|].
  exists pre, chat'.
  rewrite (calls_since_log w (pre ++ [(chat', um)])) by reflexivity.
  repeat split; assumption.
Qed.

Lemma outcome_file_message (request : ChatRequest) (w : World) (um : UserMessage)
  (out : Result HTTPException string * World) (c : LlmChat * UserMessage) :
  Outcome request w um out ->
  In c (calls_since w (snd out)) ->
  file_contents (snd c) <> [] ->
  snd c = um.
Proof.
  intros Ho Hin Hfile.
  destruct (outcome_calls _ _ _ _ Ho) as [_ [k Hk]].
  assert (Hs : In (snd c) (map snd (calls_since w (snd out))))
    by (apply in_map; exact Hin).
  rewrite Hk in Hs.
  assert (Hs' : In (snd c)
                   (replay_plan (last_n 10 (fetch_history (req_session_id request) 20
                                                          (chat_messages w)))
                    ++ [um])).
  { rewrite <- (firstn_skipn k (_ ++ [um])). apply in_or_app. now left. }
  apply in_app_or in Hs' as [Hp|[Hu|[]]]; [|now symmetry].
  exfalso. apply Hfile.
  pose proof (replay_plan_text_only
                (last_n 10 (fetch_history (req_session_id request) 20
                                          (chat_messages w)))) as Hall.
  rewrite Forall_forall in Hall. exact (Hall _ Hp).
Qed.

(** A call that returns a reply ran with the credential configured. *)
Lemma chat_ok_outcome (request : ChatRequest) (w : World) (reply : string) :
  fst (chat_with_ai request w) = Ok reply ->
  exists um, current_message request = Some um /\
             Outcome request w um (chat_with_ai request w).
Proof.
  intros Hok. destruct (chat_cases request w) as [[_ Hr]|[_ H]]; [|exact H].
  rewrite Hr in Hok. discriminate.
Qed.

(** Every call to the provider goes through a session opened with the
    persona followed by the pet-context fragment. *)
Lemma system_prompt_carries_fragment (request : ChatRequest) (w : World)
  (c : LlmChat * UserMessage) :
  In c (calls_since w (snd (chat_with_ai request w))) ->
  system_message (fst c) = build_system_message (pet_fragment request w).
Proof.
  destruct (chat_cases request w) as [[_ Hr]|[Hkey [um [Hum _]]]].
  - rewrite Hr. simpl. rewrite calls_since_same. intros [].
  - rewrite (chat_with_ai_run _ _ _ Hkey Hum). cbv zeta.
    set (chat := open_chat _ _). set (plan := replay_plan _).
    pose proof (converse_system_message plan chat) as Hall.
    destruct (converse chat plan) as [calls [chat'|e]] eqn:Hcv; simpl in Hall.
    + assert (Hchat' : system_message chat' = system_message chat).
      { apply (converse_final_system_message plan). now rewrite Hcv. }
      destruct (complete chat' um) as [err|reply].
      * rewrite (calls_since_log w (calls ++ [(chat', um)])) by reflexivity.
        intros Hin. apply in_app_or in Hin as [Hin|[<-|[]]].
        -- rewrite Forall_forall in Hall. exact (Hall _ Hin).
        -- exact Hchat'.
      * rewrite (calls_since_log w (calls ++ [(chat', um)])) by reflexivity.
        intros Hin. apply in_app_or in Hin as [Hin|[<-|[]]].
        -- rewrite Forall_forall in Hall. exact (Hall _ Hin).
        -- exact Hchat'.
    + rewrite (calls_since_log w calls) by reflexivity.
      intros Hin. rewrite Forall_forall in Hall. exact (Hall _ Hin).
Qed.

End Outcomes.

(** *** Stored images and the replay *)

Section Images.
Context {E : Env}.

Lemma last_n_map {A B : Type} (f : A -> B) (n : nat) (l : list A) :
  last_n n (map f l) = map f (last_n n l).
Proof. unfold last_n. rewrite length_map. apply skipn_map. Qed.

(** The replay reads nothing of a stored turn but its role and its
    content. *)
Lemma replay_plan_role_content (l1 l2 : list ChatMessage) :
  map role_content l1 = map role_content l2 ->
  replay_plan l1 = replay_plan l2.
Proof.
  unfold replay_plan. revert l2.
  induction l1 as [|x t IH]; intros [|y u]; simpl; try discriminate.
  - reflexivity.
  - unfold role_content at 1 2. intros [= Hr Hc Ht].
    rewrite Hr. destruct (role y =? "user"); simpl.
    + rewrite Hc. f_equal. now apply IH.
    + now apply IH.
Qed.

(** The replay window of a session is cut out of the turns of the
    session, oldest first. *)
Lemma replay_window_of_session (sid : string) (w : World) :
  map role_content (last_n 10 (fetch_history sid 20 (chat_messages w)))
  = last_n 10 (firstn 20 (map role_content (session_turns sid w))).
Proof.
  unfold fetch_history, to_list, session_turns.
  now rewrite <- last_n_map, firstn_map.
Qed.

Lemma replay_window_role_content (sid1 sid2 : string) (w1 w2 : World) :
  map role_content (session_turns sid1 w1)
  = map role_content (session_turns sid2 w2) ->
  replay_plan (last_n 10 (fetch_history sid1 20 (chat_messages w1)))
  = replay_plan (last_n 10 (fetch_history sid2 20 (chat_messages w2))).
Proof.
  intros H. apply replay_plan_role_content.
  now rewrite !replay_window_of_session, H.
Qed.

End Images.

(** *** The new turn *)

Section NewTurn.
Context {E : Env}.

Lemma contains_at_sep (sep : ascii) (p q : string) :
  contains sep (p ++ String sep q) = true.
Proof.
  induction p as [|c t IH]; simpl.
  - now rewrite Ascii.eqb_refl.
  - rewrite IH. apply orb_true_r.
Qed.

(** The payload when the image has exactly one comma, and when it has
    more: the text between the first comma and the second. *)
Lemma image_data_one_comma (p q : string) :
  contains ","%char p = false -> contains ","%char q = false ->
  image_data (p ++ "," ++ q) = Some q.
Proof.
  intros Hp Hq. unfold image_data.
  change ("," ++ q) with (String ","%char q).
  rewrite contains_at_sep, (split_at_first _ _ _ Hp), (split_no_sep _ _ Hq).
  reflexivity.
Qed.

Lemma image_data_more_commas (p q r : string) :
  contains ","%char p = false -> contains ","%char q = false ->
  image_data (p ++ "," ++ q ++ "," ++ r) = Some q.
Proof.
  intros Hp Hq. unfold image_data.
  change ("," ++ q ++ "," ++ r) with (String ","%char (q ++ String ","%char r)).
  rewrite contains_at_sep, (split_at_first _ _ _ Hp), (split_at_first _ _ _ Hq).
  reflexivity.
Qed.

Lemma image_data_no_comma (img : string) :
  contains ","%char img = false -> image_data img = Some img.
Proof. intros H. unfold image_data. now rewrite H. Qed.

Lemma current_message_image (request : ChatRequest) (img d : string) :
  req_image request = Some img -> truthy img = true ->
  image_data img = Some d ->
  current_message request =
  Some (mkUserMessage (message_text (req_message request))
                      [mkFileContent "image/jpeg" d]).
Proof.
  intros Hi Ht Hd. unfold current_message. rewrite Hi. simpl.
  rewrite Ht, Hd. reflexivity.
Qed.

Lemma current_message_no_image (request : ChatRequest) :
  truthy_opt (req_image request) = false ->
  current_message request = Some (mkUserMessage (req_message request) []).
Proof. intros H. unfold current_message. now rewrite H. Qed.

(** With an image attached, the one message that carries a file is the
    new turn, and a call that succeeds has sent it last. *)
Lemma image_call (request : ChatRequest) (img d : string) (w : World) :
  req_image request = Some img -> truthy img = true ->
  image_data img = Some d ->
  let um := mkUserMessage (message_text (req_message request))
                          [mkFileContent "image/jpeg" d] in
  let out := chat_with_ai request w in
  (forall c, In c (calls_since w (snd out)) -> file_contents (snd c) <> [] ->
             snd c = um) /\
  (forall reply, fst out = Ok reply ->
     exists pre chat',
       calls_since w (snd out) = (pre ++ [(chat', um)])%list /\
       complete chat' um = inr reply).
Proof.
  intros Hi Ht Hd um out.
  pose proof (current_message_image _ _ _ Hi Ht Hd) as Hum.
  destruct (chat_cases request w) as [[_ Hr]|[_ [um' [Hum' Ho]]]].
  - subst out. rewrite Hr. simpl. rewrite calls_since_same.
    split; [intros c []|discriminate].
  - rewrite Hum in Hum'. injection Hum' as <-. split.
    + intros c Hin Hf. exact (outcome_file_message _ _ _ _ _ Ho Hin Hf).
    + intros reply Hok.
      destruct (outcome_ok _ _ _ _ _ Ho Hok) as [_ (pre & chat' & Hc & _ & _ & Hr)].
      exists pre, chat'. split; assumption.
Qed.

End NewTurn.

(** ** The chat protocol *)

Section Protocol.
Context {E : Env}.

(** C1. With the credential configured, a chat call makes at least one
    call to the provider; if one of them fails, the stored turns are
    unchanged and the call reports a 500 error; if all of them succeed,
    exactly two turns are appended for the session, a user turn then an
    assistant turn, and the reply of the last provider call is both the
    assistant turn's content and the value returned. *)
Theorem chat_turns_atomic (request : ChatRequest) (w : World) :
  truthy EMERGENT_LLM_KEY = true ->
  let out := chat_with_ai request w in
  let calls := calls_since w (snd out) in
  provider_calls (snd out) = (provider_calls w ++ calls)%list /\
  calls <> [] /\
  (forallb call_ok calls = false ->
     chat_messages (snd out) = chat_messages w /\
     exists e, fst out = Raise e /\ status_code e = 500%Z) /\
  (forallb call_ok calls = true ->
     exists reply u a,
       fst out = Ok reply /\
       chat_messages (snd out) = (chat_messages w ++ [u; a])%list /\
       role u = "user" /\ role a = "assistant" /\
       session_id u = req_session_id request /\
       session_id a = req_session_id request /\
       content a = reply /\
       exists pre c, calls = (pre ++ [c])%list /\
                     complete (fst c) (snd c) = inr reply).
Proof.
  intros Hkey out calls. subst calls out.
  destruct (current_message_total request) as [um Hum].
  pose proof (chat_outcome request um w Hkey Hum) as Ho.
  destruct (outcome_calls _ _ _ _ Ho) as [Hlog _].
  split; [exact Hlog|]. clear Hlog.
  remember (chat_with_ai request w) as out eqn:Hout.
  destruct Ho as [pre chat' reply Hm Hf Hc | calls err k Hn Hf Hm]; simpl.
  - rewrite (calls_since_log w (pre ++ [(chat', um)])) by reflexivity.
    assert (Hall : forallb call_ok (pre ++ [(chat', um)]) = true).
    { rewrite forallb_app, Hf. simpl. unfold call_ok. simpl. now rewrite Hc. }
    split; [destruct pre; discriminate|]. split.
    + rewrite Hall. discriminate.
    + intros _. exists reply, (user_turn request w), (assistant_turn request w reply).
      repeat split. exists pre, (chat', um). split; [reflexivity|exact Hc].
  - rewrite (calls_since_log w calls) by reflexivity.
    split; [exact Hn|]. split.
    + intros _. split; [reflexivity|]. eexists. split; reflexivity.
    + rewrite Hf. discriminate.
Qed.

(** C4. Take two chat calls, on any two sessions of any two stores,
    whose session histories (the turns of the session, oldest first)
    agree on the role and the content of every turn; ids, times, pet
    references and image payloads of the stored turns may differ at
    will. Then the messages to replay are the same list and none of
    them carries a file; what each call sends is a beginning of that
    list followed at most by its own new turn; when both calls succeed,
    both have sent the whole list before their new turn. If moreover
    the two calls have the same request and the same pet context, they
    make the same provider calls and have the same result. *)
Theorem stored_images_never_replayed (request1 request2 : ChatRequest)
  (w1 w2 : World) :
  map role_content (session_turns (req_session_id request1) w1)
  = map role_content (session_turns (req_session_id request2) w2) ->
  let window request w :=
    replay_plan (last_n 10 (fetch_history (req_session_id request) 20
                                          (chat_messages w))) in
  let sent request w :=
    map snd (calls_since w (snd (chat_with_ai request w))) in
  window request1 w1 = window request2 w2 /\
  Forall (fun um => file_contents um = []) (window request1 w1) /\
  (exists um1 um2 k1 k2,
     current_message request1 = Some um1 /\
     current_message request2 = Some um2 /\
     sent request1 w1 = firstn k1 (window request1 w1 ++ [um1]) /\
     sent request2 w2 = firstn k2 (window request1 w1 ++ [um2])) /\
  (forall reply1 reply2,
     fst (chat_with_ai request1 w1) = Ok reply1 ->
     fst (chat_with_ai request2 w2) = Ok reply2 ->
     exists um1 um2,
       sent request1 w1 = (window request1 w1 ++ [um1])%list /\
       sent request2 w2 = (window request1 w1 ++ [um2])%list) /\
  (request1 = request2 ->
   pet_fragment request1 w1 = pet_fragment request2 w2 ->
   calls_since w1 (snd (chat_with_ai request1 w1)) =
   calls_since w2 (snd (chat_with_ai request2 w2)) /\
   fst (chat_with_ai request1 w1) = fst (chat_with_ai request2 w2)).
Proof.
  intros Hhist window sent.
  assert (Hplan : window request1 w1 = window request2 w2)
    by (apply replay_window_role_content; exact Hhist).
  assert (Hsent : forall request w,
            exists um k, current_message request = Some um /\
                         sent request w = firstn k (window request w ++ [um])).
  { intros request w. unfold sent.
    destruct (chat_cases request w) as [[_ Hr]|[_ [um [Hum Ho]]]].
    - destruct (current_message_total request) as [um Hum].
      exists um, 0. split; [exact Hum|].
      rewrite Hr. simpl. now rewrite calls_since_same.
    - destruct (outcome_calls _ _ _ _ Ho) as [_ [k Hk]].
      exists um, k. split; [exact Hum|exact Hk]. }
  assert (Hall : forall request w reply,
            fst (chat_with_ai request w) = Ok reply ->
            exists um, sent request w = (window request w ++ [um])%list).
  { intros request w reply Hok. unfold sent.
    destruct (chat_ok_outcome _ _ _ Hok) as [um [_ Ho]].
    destruct (outcome_ok _ _ _ _ _ Ho Hok) as [_ (pre & chat' & Hc & Hm & _)].
    exists um. rewrite Hc, map_app, Hm. reflexivity. }
  split; [exact Hplan|]. split; [apply replay_plan_text_only|].
  split; [|split].
  - destruct (Hsent request1 w1) as (um1 & k1 & Hu1 & Hs1).
    destruct (Hsent request2 w2) as (um2 & k2 & Hu2 & Hs2).
    exists um1, um2, k1, k2. rewrite <- Hplan in Hs2.
    repeat split; assumption.
  - intros reply1 reply2 Hok1 Hok2.
    destruct (Hall _ _ _ Hok1) as [um1 H1].
    destruct (Hall _ _ _ Hok2) as [um2 H2].
    exists um1, um2. rewrite <- Hplan in H2. split; assumption.
  - intros <- Hfrag.
    destruct (truthy EMERGENT_LLM_KEY) eqn:Hkey.
    + destruct (current_message_total request1) as [um Hum].
      rewrite !(chat_with_ai_run _ _ _ Hkey Hum). cbv zeta.
      fold (window request1 w1). fold (window request1 w2).
      rewrite Hplan, Hfrag.
      destruct (converse _ (window request1 w2)) as [calls [chat'|e]].
      * destruct (complete chat' um) as [err|reply]; simpl;
          rewrite (calls_since_log w1 (calls ++ [(chat', um)])) by reflexivity;
          rewrite (calls_since_log w2 (calls ++ [(chat', um)])) by reflexivity;
          split; reflexivity.
      * simpl. rewrite (calls_since_log w1 calls) by reflexivity.
        rewrite (calls_since_log w2 calls) by reflexivity.
        split; reflexivity.
    + rewrite !(chat_unconfigured _ _ Hkey). simpl.
      rewrite !calls_since_same. split; reflexivity.
Qed.

(** C5, amended. A successful chat call appends a user turn whose
    content is the request's message, or the literal [Image] marker when
    the message is the empty string, whose image is the request's image
    and whose pet reference is the request's; then an assistant turn
    whose content is the reply, with no image and the same pet
    reference. *)
Theorem persisted_turns_of_success (request : ChatRequest) (w : World)
  (reply : string) :
  fst (chat_with_ai request w) = Ok reply ->
  exists u a,
    chat_messages (snd (chat_with_ai request w)) = (chat_messages w ++ [u; a])%list /\
    role u = "user" /\
    (req_message request = EmptyString -> content u = "[Image]") /\
    (req_message request <> EmptyString -> content u = req_message request) /\
    image u = req_image request /\
    pet_id u = req_pet_id request /\
    role a = "assistant" /\
    content a = reply /\
    image a = None /\
    pet_id a = req_pet_id request.
Proof.
  intros Hok. destruct (chat_ok_outcome _ _ _ Hok) as [um [_ Ho]].
  destruct (outcome_ok _ _ _ _ _ Ho Hok) as [Hcm _].
  exists (user_turn request w), (assistant_turn request w reply).
  split; [exact Hcm|]. simpl. repeat split.
  - intros ->. reflexivity.
  - intros Hne. apply or_else_truthy.
    destruct (req_message request); [congruence|reflexivity].
Qed.

(** C9. A successful chat call whose message is the empty string and
    which attaches no image stores [Image] as the content of the user
    turn. *)
Theorem empty_message_placeholder_without_image (request : ChatRequest)
  (w : World) (reply : string) :
  fst (chat_with_ai request w) = Ok reply ->
  req_message request = EmptyString ->
  truthy_opt (req_image request) = false ->
  exists u a,
    chat_messages (snd (chat_with_ai request w)) = (chat_messages w ++ [u; a])%list /\
    role u = "user" /\
    content u = "[Image]" /\
    exists pre chat',
      calls_since w (snd (chat_with_ai request w))
        = (pre ++ [(chat', mkUserMessage EmptyString [])])%list.
Proof.
  intros Hok Hmsg Himg. destruct (chat_ok_outcome _ _ _ Hok) as [um [Hum Ho]].
  rewrite (current_message_no_image _ Himg) in Hum. injection Hum as <-.
  destruct (outcome_ok _ _ _ _ _ Ho Hok) as [Hcm (pre & chat' & Hc & _)].
  exists (user_turn request w), (assistant_turn request w reply).
  split; [exact Hcm|]. split; [reflexivity|]. split.
  - simpl. now rewrite Hmsg.
  - exists pre, chat'. rewrite Hc, Hmsg. reflexivity.
Qed.

End Protocol.

(** ** The new turn's message and the system prompt *)

Section Outbound.
Context {E : Env}.

(** C6, amended. When an image is attached, the message that carries it
    has the default describe-the-image prompt as its text if the
    request's message is the empty string, and the stripped message
    otherwise; a call that succeeds has sent that message last and
    returns the provider's reply to it. *)
Theorem outbound_text_with_image (request : ChatRequest) (w : World) :
  truthy_opt (req_image request) = true ->
  let out := chat_with_ai request w in
  let calls := calls_since w (snd out) in
  (forall c, In c calls -> file_contents (snd c) <> [] ->
     (req_message request = EmptyString ->
      text (snd c) = default_image_prompt) /\
     (req_message request <> EmptyString ->
      text (snd c) = strip (req_message request))) /\
  (forall reply, fst out = Ok reply ->
     exists pre c, calls = (pre ++ [c])%list /\
                   file_contents (snd c) <> [] /\
                   complete (fst c) (snd c) = inr reply).
Proof.
  intros Himg out calls. subst calls out.
  destruct (req_image request) as [img|] eqn:Hi; [|discriminate].
  simpl in Himg. destruct (image_data_total img) as [d Hd].
  destruct (image_call request img d w Hi Himg Hd) as [Hfile Hlast].
  split.
  - intros c Hin Hf. rewrite (Hfile c Hin Hf). simpl. unfold message_text.
    split.
    + intros ->. reflexivity.
    + intros Hne. destruct (req_message request); [congruence|reflexivity].
  - intros reply Hok. destruct (Hlast reply Hok) as (pre & chat' & Hc & Hr).
    exists pre, (chat', mkUserMessage (message_text (req_message request))
                                      [mkFileContent "image/jpeg" d]).
    split; [exact Hc|]. split; [discriminate|exact Hr].
Qed.

(** C7, amended. When an image string is attached, the payload
    forwarded is the second field of the string cut at every comma: the
    string itself when it has no comma, the part after the comma when
    it has exactly one, and the part between the first and the second
    comma when it has more. The message that carries a file carries
    exactly this payload, and a call that succeeds has sent it last. *)
Theorem image_payload_is_second_field (request : ChatRequest) (img : string)
  (w : World) :
  req_image request = Some img ->
  truthy img = true ->
  let out := chat_with_ai request w in
  let calls := calls_since w (snd out) in
  exists d,
    image_data img = Some d /\
    nth_error (split ","%char img ++ [img]) 1 = Some d /\
    (contains ","%char img = false -> d = img) /\
    (forall p q, img = p ++ "," ++ q ->
       contains ","%char p = false -> contains ","%char q = false -> d = q) /\
    (forall p q r, img = p ++ "," ++ q ++ "," ++ r ->
       contains ","%char p = false -> contains ","%char q = false -> d = q) /\
    (forall c, In c calls -> file_contents (snd c) <> [] ->
       file_contents (snd c) = [mkFileContent "image/jpeg" d]) /\
    (forall reply, fst out = Ok reply ->
       exists pre c, calls = (pre ++ [c])%list /\
                     file_contents (snd c) = [mkFileContent "image/jpeg" d]).
Proof.
  intros Hi Ht out calls. subst calls out.
  destruct (image_data_total img) as [d Hd]. exists d.
  split; [exact Hd|]. split.
  { unfold image_data in Hd. destruct (contains ","%char img) eqn:Hc.
    - destruct (split_contains _ _ Hc) as (a & b & r & Hs).
      rewrite Hs in *. exact Hd.
    - rewrite (split_no_sep _ _ Hc). simpl. exact Hd. }
  split.
  { intros Hc. rewrite (image_data_no_comma _ Hc) in Hd. congruence. }
  split.
  { intros p q -> Hp Hq. rewrite (image_data_one_comma _ _ Hp Hq) in Hd.
    congruence. }
  split.
  { intros p q r -> Hp Hq. rewrite (image_data_more_commas _ _ _ Hp Hq) in Hd.
    congruence. }
  destruct (image_call request img d w Hi Ht Hd) as [Hfile Hlast].
  split.
  - intros c Hin Hf. rewrite (Hfile c Hin Hf). reflexivity.
  - intros reply Hok. destruct (Hlast reply Hok) as (pre & chat' & Hc & _).
    exists pre, (chat', mkUserMessage (message_text (req_message request))
                                      [mkFileContent "image/jpeg" d]).
    split; [exact Hc|reflexivity].
Qed.

(** C10. When an image is attached, every file sent to the provider is
    declared as image/jpeg, whatever the request's data URI names, and
    a call that succeeds has sent exactly one such file, with the new
    turn. *)
Theorem image_part_declared_jpeg (request : ChatRequest) (w : World) :
  truthy_opt (req_image request) = true ->
  let out := chat_with_ai request w in
  let calls := calls_since w (snd out) in
  (forall c f, In c calls -> In f (file_contents (snd c)) ->
     content_type f = "image/jpeg") /\
  (forall reply, fst out = Ok reply ->
     exists pre c f, calls = (pre ++ [c])%list /\
                     file_contents (snd c) = [f] /\
                     content_type f = "image/jpeg").
Proof.
  intros Himg out calls. subst calls out.
  destruct (req_image request) as [img|] eqn:Hi; [|discriminate].
  simpl in Himg. destruct (image_data_total img) as [d Hd].
  destruct (image_call request img d w Hi Himg Hd) as [Hfile Hlast].
  split.
  - intros c f Hin Hf.
    assert (Hne : file_contents (snd c) <> [])
      by (intros Hnil; rewrite Hnil in Hf; exact Hf).
    rewrite (Hfile c Hin Hne) in Hf. simpl in Hf.
    destruct Hf as [<-|[]]. reflexivity.
  - intros reply Hok. destruct (Hlast reply Hok) as (pre & chat' & Hc & _).
    exists pre, (chat', mkUserMessage (message_text (req_message request))
                                      [mkFileContent "image/jpeg" d]),
           (mkFileContent "image/jpeg" d).
    split; [exact Hc|]. split; reflexivity.
Qed.

(** C8. Resolving the pet context never fails and leaves the stores
    alone; the fragment goes after the persona in the system prompt of
    every provider call. It is empty when the request has no pet
    reference or the pet is not found. For a pet that is found it is
    the sentence made of the name, the gender clause, the species, the
    breed parenthetical, the birth date and the weight clause, where
    the gender clause, the breed parenthetical and the weight clause
    are there exactly when the field is present (not [None], not
    empty, not zero) and are otherwise left out whole, and the species
    is the custom label when the species is [other] and a label is
    present, the literal species otherwise. In particular the custom
    label replaces [other], a missing gender leaves a single space
    between the article and the species, and a pet without breed and
    weight gets neither clause. *)
Theorem pet_context_fragment (request : ChatRequest) (w : World) :
  pet_context (X := HTTPException) request w
    = (Ok (pet_fragment request w), w) /\
  (forall c, In c (calls_since w (snd (chat_with_ai request w))) ->
     system_message (fst c) = persona ++ pet_fragment request w) /\
  (truthy_opt (req_pet_id request) = false ->
     pet_fragment request w = EmptyString) /\
  (forall pid, req_pet_id request = Some pid ->
     find (fun p => Pet_id p =? pid) (pets w) = None ->
     pet_fragment request w = EmptyString) /\
  (forall pid p, req_pet_id request = Some pid -> truthy pid = true ->
     find (fun p => Pet_id p =? pid) (pets w) = Some p ->
     pet_fragment request w = render_pet_context p /\
     pet_fragment request w =
       nl ++ nl ++ "Current pet context: " ++ name p ++ " is a"
          ++ match gender p with
             | Some g => if truthy g then " " ++ g else EmptyString
             | None => EmptyString
             end
          ++ " "
          ++ match custom_pet_type p with
             | Some label =>
                 if (pet_type p =? "other") && truthy label then label
                 else pet_type p
             | None => pet_type p
             end
          ++ match breed p with
             | Some b => if truthy b then " (" ++ b ++ ")" else EmptyString
             | None => EmptyString
             end
          ++ ", born on " ++ birth_date p
          ++ match weight p with
             | Some x =>
                 if float_truthy x then ", weighing " ++ float_str x ++ " lb"
                 else EmptyString
             | None => EmptyString
             end
          ++ "." /\
     (forall label, pet_type p = "other" -> custom_pet_type p = Some label ->
        truthy label = true ->
        render_pet_context p =
          nl ++ nl ++ "Current pet context: " ++ name p ++ " is a"
             ++ gender_str p ++ " " ++ label ++ breed_clause p
             ++ ", born on " ++ birth_date p ++ weight_clause p ++ ".") /\
     (gender p = None ->
        render_pet_context p =
          nl ++ nl ++ "Current pet context: " ++ name p ++ " is a "
             ++ pet_type_str p ++ breed_clause p
             ++ ", born on " ++ birth_date p ++ weight_clause p ++ ".") /\
     (forall g, gender p = Some g -> truthy g = true ->
        pet_type p <> "other" -> breed p = None -> weight p = None ->
        pet_fragment request w =
          nl ++ nl ++ "Current pet context: " ++ name p ++ " is a " ++ g
             ++ " " ++ pet_type p ++ ", born on " ++ birth_date p ++ ".") /\
     (breed p = None -> breed_clause p = EmptyString) /\
     (forall b, breed p = Some b -> truthy b = true ->
        breed_clause p = " (" ++ b ++ ")") /\
     (weight p = None -> weight_clause p = EmptyString) /\
     (forall x, weight p = Some x -> float_truthy x = true ->
        weight_clause p = ", weighing " ++ float_str x ++ " lb")).
Proof.
  split; [apply pet_context_run|].
  split; [intros c Hin; exact (system_prompt_carries_fragment _ _ _ Hin)|].
  split.
  { unfold pet_fragment. destruct (req_pet_id request) as [pid|]; simpl.
    - intros ->. reflexivity.
    - reflexivity. }
  split.
  { intros pid Hp Hfind. unfold pet_fragment. rewrite Hp, Hfind.
    destruct (truthy pid); reflexivity. }
  intros pid p Hp Ht Hfind.
  assert (Hfrag : pet_fragment request w = render_pet_context p).
  { unfold pet_fragment. now rewrite Hp, Ht, Hfind. }
  assert (Hfull : render_pet_context p =
       nl ++ nl ++ "Current pet context: " ++ name p ++ " is a"
          ++ match gender p with
             | Some g => if truthy g then " " ++ g else EmptyString
             | None => EmptyString
             end
          ++ " "
          ++ match custom_pet_type p with
             | Some label =>
                 if (pet_type p =? "other") && truthy label then label
                 else pet_type p
             | None => pet_type p
             end
          ++ match breed p with
             | Some b => if truthy b then " (" ++ b ++ ")" else EmptyString
             | None => EmptyString
             end
          ++ ", born on " ++ birth_date p
          ++ match weight p with
             | Some x =>
                 if float_truthy x then ", weighing " ++ float_str x ++ " lb"
                 else EmptyString
             | None => EmptyString
             end
          ++ ".").
  { unfold render_pet_context, gender_str, pet_type_str, breed_clause,
      weight_clause.
    destruct (gender p) as [g|]; simpl;
      destruct (custom_pet_type p) as [label|]; simpl;
      destruct (breed p) as [b|]; simpl;
      try rewrite andb_false_r; reflexivity. }
  split; [exact Hfrag|]. split; [now rewrite Hfrag|].
  split.
  { intros label Hty Hc Hl. unfold render_pet_context, pet_type_str.
    rewrite Hty, Hc. simpl. rewrite Hl. reflexivity. }
  split.
  { intros Hg. unfold render_pet_context, gender_str. rewrite Hg. reflexivity. }
  split.
  { intros g Hg Htg Hty Hb Hw. rewrite Hfrag, Hfull, Hg, Htg, Hb, Hw.
    apply String.eqb_neq in Hty. rewrite Hty. simpl.
    destruct (custom_pet_type p); reflexivity. }
  split.
  { intros Hb. unfold breed_clause. now rewrite Hb. }
  split.
  { intros b Hb Htb. unfold breed_clause. rewrite Hb. simpl. now rewrite Htb. }
  split.
  { intros Hw. unfold weight_clause. now rewrite Hw. }
  intros x Hw Hx. unfold weight_clause. now rewrite Hw, Hx.
Qed.

End Outbound.

(** ** The protocol on concrete requests *)

Module Examples.
Import Demo.

(** C1 at the request [hello] on an empty store. *)
Lemma chat_turns_atomic_witness :
  truthy (EMERGENT_LLM_KEY (Env := demo_env)) = true /\
  exists u a,
    chat_messages (snd (chat_with_ai hello empty_world)) = [u; a] /\
    role u = "user" /\ role a = "assistant" /\ content a = "re: Hello".
Proof.
  split; [reflexivity|].
  destruct (chat_turns_atomic (E := demo_env) hello empty_world eq_refl)
    as (_ & _ & _ & Hs).
  destruct (Hs eq_refl) as (reply & u & a & Hr & Hcm & Hu & Ha & _ & _ & Hc & _).
  exists u, a. repeat split; try assumption.
  rewrite Hc. vm_compute in Hr. congruence.
Defined.

(** A failing provider call leaves the store as it was. *)
Example failed_call_persists_nothing :
  chat_messages (snd (chat_with_ai failing long_world)) = chat_messages long_world /\
  fst (chat_with_ai failing empty_world)
    = Raise (mkHTTPException 500 "AI service error: provider down").
Proof. split; vm_compute; reflexivity. Qed.

(** C4 at a session whose one turn has a picture and another session,
    of another store, that holds the same words under another id,
    time and pet reference and without the picture. *)
Lemma stored_images_never_replayed_witness :
  map role_content (session_turns (req_session_id hello) pictured_world)
  = map role_content (session_turns (req_session_id hello_t) retold_world) /\
  map snd (calls_since pictured_world
             (snd (chat_with_ai (E := demo_env) hello pictured_world)))
  = map snd (calls_since retold_world
               (snd (chat_with_ai (E := demo_env) hello_t retold_world))).
Proof.
  assert (Hh : map role_content (session_turns (req_session_id hello) pictured_world)
               = map role_content
                   (session_turns (req_session_id hello_t) retold_world))
    by reflexivity.
  split; [exact Hh|].
  destruct (stored_images_never_replayed (E := demo_env) hello hello_t
              pictured_world retold_world Hh)
    as (_ & _ & _ & Hboth & _).
  destruct (Hboth "re: Hello" "re: Hello" eq_refl eq_refl)
    as (um1 & um2 & H1 & H2).
  rewrite H1, H2. f_equal.
  vm_compute in H1. vm_compute in H2. congruence.
Defined.

(** C5, as stated, fails on a message made of one space: the message is
    whitespace-only, the call succeeds, and the user turn stores the
    space, not the [Image] marker. *)
Lemma whitespace_message_stored_verbatim :
  let out := chat_with_ai (E := demo_env) blank empty_world in
  strip (req_message blank) = EmptyString /\
  exists reply u a,
    fst out = Ok reply /\
    chat_messages (snd out) = [u; a] /\
    content u = " " /\
    content u <> "[Image]".
Proof.
  split; [reflexivity|].
  eexists _, _, _. split; [vm_compute; reflexivity|].
  split; [vm_compute; reflexivity|].
  split; [reflexivity|discriminate].
Qed.

(** C5, amended, at the request [hello]. *)
Lemma persisted_turns_of_success_witness :
  fst (chat_with_ai (E := demo_env) hello empty_world) = Ok "re: Hello" /\
  exists u a,
    chat_messages (snd (chat_with_ai hello empty_world)) = [u; a] /\
    content u = "Hello" /\ content a = "re: Hello" /\ image a = None.
Proof.
  assert (Hok : fst (chat_with_ai (E := demo_env) hello empty_world)
                = Ok "re: Hello") by (vm_compute; reflexivity).
  split; [exact Hok|].
  destruct (persisted_turns_of_success (E := demo_env) hello empty_world _ Hok)
    as (u & a & Hcm & _ & _ & Hu & _ & _ & _ & Ha & Hi & _).
  exists u, a. repeat split; try assumption.
  apply Hu. discriminate.
Defined.

(** C9 at the empty message without an image. *)
Lemma empty_message_placeholder_without_image_witness :
  fst (chat_with_ai (E := demo_env) empty_text empty_world) = Ok "re: " /\
  req_message empty_text = EmptyString /\
  truthy_opt (req_image empty_text) = false /\
  exists u a,
    chat_messages (snd (chat_with_ai empty_text empty_world)) = [u; a] /\
    content u = "[Image]".
Proof.
  assert (Hok : fst (chat_with_ai (E := demo_env) empty_text empty_world)
                = Ok "re: ") by (vm_compute; reflexivity).
  split; [exact Hok|]. split; [reflexivity|]. split; [reflexivity|].
  destruct (empty_message_placeholder_without_image (E := demo_env)
              empty_text empty_world _ Hok eq_refl eq_refl)
    as (u & a & Hcm & _ & Hu & _).
  exists u, a. split; assumption.
Defined.

(** C6, as stated, fails on a message made of one space sent with an
    image: the message is whitespace-only, and the text that goes out
    with the image is the empty string, not the default prompt. *)
Lemma whitespace_message_sent_empty :
  let out := chat_with_ai (E := demo_env) blank_with_image empty_world in
  truthy_opt (req_image blank_with_image) = true /\
  strip (req_message blank_with_image) = EmptyString /\
  exists c,
    calls_since empty_world (snd out) = [c] /\
    file_contents (snd c) <> [] /\
    text (snd c) = EmptyString /\
    text (snd c) <> default_image_prompt.
Proof.
  split; [reflexivity|]. split; [reflexivity|].
  eexists. split; [vm_compute; reflexivity|].
  split; [discriminate|]. split; [reflexivity|discriminate].
Qed.

(** C6, amended, at a padded question sent with an image. *)
Lemma outbound_text_with_image_witness :
  truthy_opt (req_image about_bun) = true /\
  exists pre c,
    calls_since empty_world (snd (chat_with_ai (E := demo_env) about_bun empty_world))
      = (pre ++ [c])%list /\
    text (snd c) = "Is this safe?".
Proof.
  split; [reflexivity|].
  destruct (outbound_text_with_image (E := demo_env) about_bun empty_world eq_refl)
    as [Htext Hlast].
  destruct (Hlast "re: Is this safe?" eq_refl) as (pre & c & Hc & Hf & _).
  exists pre, c. split; [exact Hc|].
  refine (proj2 (Htext c _ Hf) _); [|discriminate].
  rewrite Hc. apply in_or_app. right. left. reflexivity.
Defined.

(** C7, as stated, fails on an image string with two commas: the part
    after the first comma is [b,c], and the payload forwarded is [b]. *)
Lemma payload_cut_at_second_comma :
  let out := chat_with_ai (E := demo_env) two_commas empty_world in
  req_image two_commas = Some ("a" ++ "," ++ "b,c") /\
  contains ","%char "a" = false /\
  exists c,
    calls_since empty_world (snd out) = [c] /\
    file_contents (snd c) = [mkFileContent "image/jpeg" "b"] /\
    "b" <> "b,c".
Proof.
  split; [reflexivity|]. split; [reflexivity|].
  eexists. split; [vm_compute; reflexivity|].
  split; [reflexivity|discriminate].
Qed.

(** C7, amended, at a PNG data URI: the payload is what follows the
    comma. *)
Lemma image_payload_is_second_field_witness :
  req_image blank_with_image = Some "data:image/png;base64,AAAA" /\
  truthy "data:image/png;base64,AAAA" = true /\
  exists pre c,
    calls_since empty_world
      (snd (chat_with_ai (E := demo_env) blank_with_image empty_world))
      = (pre ++ [c])%list /\
    file_contents (snd c) = [mkFileContent "image/jpeg" "AAAA"].
Proof.
  split; [reflexivity|]. split; [reflexivity|].
  destruct (image_payload_is_second_field (E := demo_env) blank_with_image
              "data:image/png;base64,AAAA" empty_world eq_refl eq_refl)
    as (d & _ & _ & _ & Hone & _ & _ & Hlast).
  destruct (Hlast "re: " eq_refl) as (pre & c & Hc & Hf).
  exists pre, c. split; [exact Hc|].
  rewrite Hf.
  rewrite (Hone "data:image/png;base64" "AAAA" eq_refl eq_refl eq_refl).
  reflexivity.
Defined.

(** C10 at a PNG data URI: the file still goes out as image/jpeg. *)
Lemma image_part_declared_jpeg_witness :
  truthy_opt (req_image blank_with_image) = true /\
  exists pre c f,
    calls_since empty_world
      (snd (chat_with_ai (E := demo_env) blank_with_image empty_world))
      = (pre ++ [c])%list /\
    file_contents (snd c) = [f] /\
    content_type f = "image/jpeg".
Proof.
  split; [reflexivity|].
  exact (proj2 (image_part_declared_jpeg (E := demo_env) blank_with_image
                  empty_world eq_refl) "re: " eq_refl).
Defined.

(** C8 at a male dog without breed or weight: the gender is there, and
    neither the breed parenthetical nor the weight clause. *)
Lemma pet_context_fragment_witness :
  pet_fragment (E := demo_env) about_duke kennel
  = nl ++ nl ++ "Current pet context: Duke is a male dog, born on 2019-09-09.".
Proof.
  destruct (pet_context_fragment (E := demo_env) about_duke kennel)
    as (_ & _ & _ & _ & Hfound).
  destruct (Hfound "p3" duke eq_refl eq_refl eq_refl)
    as (_ & _ & _ & _ & Hmale & _).
  refine (Hmale "male" eq_refl eq_refl _ eq_refl eq_refl). discriminate.
Defined.

(** The fragment of a dog without gender, breed or weight, and of a
    rabbit with all of them. *)
Example rex_fragment :
  render_pet_context rex =
    nl ++ nl ++ "Current pet context: Rex is a dog, born on 2020-01-01.".
Proof. reflexivity. Qed.

Example bun_fragment :
  render_pet_context bun =
    nl ++ nl ++ "Current pet context: Bun is a female Rabbit (Lop), "
       ++ "born on 2021-05-05, weighing 4.0 lb.".
Proof. reflexivity. Qed.

(** C2 at a session of 21 turns: the fetch returns the turns written at
    times 1 to 20, in that order; the most recent turn, written at time
    21, is stored for the session but is not fetched, and every fetched
    turn is older than it. *)
Theorem fetch_drops_newest_turn :
  let stored := chat_messages long_world in
  let fetched := fetch_history "s" 20 stored in
  List.length (find_session "s" stored) = 21 /\
  map created_at fetched = map Z.of_nat (seq 1 20) /\
  In (turn 21) (session_turns "s" long_world) /\
  ~ In (turn 21) fetched /\
  Forall (fun m => (created_at m < created_at (turn 21))%Z) fetched.
Proof.
  assert (Hold : Forall (fun m => (created_at m < created_at (turn 21))%Z)
                        (fetch_history "s" 20 (chat_messages long_world))).
  { vm_compute. repeat (constructor; [reflexivity|]). constructor. }
  split; [reflexivity|]. split; [vm_compute; reflexivity|].
  split; [vm_compute; tauto|]. split; [|exact Hold].
  intros Hin. rewrite Forall_forall in Hold. specialize (Hold _ Hin). lia.
Qed.

(** C3 at the same session, all of whose turns are user turns: the
    replay forwards the turns written at times 11 to 20 and then the
    new message; the most recent user turn of the session, written at
    time 21, is not forwarded. *)
Theorem replay_misses_latest_turn :
  let out := chat_with_ai (E := demo_env) hello long_world in
  let sent := map (fun c => text (snd c)) (calls_since long_world (snd out)) in
  sent = ["t11"; "t12"; "t13"; "t14"; "t15"; "t16"; "t17"; "t18"; "t19"; "t20";
          "Hello"] /\
  last (filter (fun m => role m =? "user") (session_turns "s" long_world))
       snapshot = turn 21 /\
  content (turn 21) = "t21" /\
  ~ In "t21" sent.
Proof.
  assert (Hsent :
    map (fun c => text (snd c))
        (calls_since long_world (snd (chat_with_ai (E := demo_env) hello long_world)))
    = ["t11"; "t12"; "t13"; "t14"; "t15"; "t16"; "t17"; "t18"; "t19"; "t20";
       "Hello"]) by (vm_compute; reflexivity).
  cbv zeta. rewrite Hsent.
  split; [reflexivity|]. split; [vm_compute; reflexivity|].
  split; [reflexivity|].
  simpl. intuition discriminate.
Qed.

End Examples.

(** ** The other routes *)

(** *** Lists as collections *)

Lemma update_first_length {A : Type} (p : A -> bool) (f : A -> A) (l : list A) :
  List.length (update_first p f l) = List.length l.
Proof.
  induction l as [|x t IH]; simpl; [reflexivity|].
  destruct (p x); simpl; [reflexivity|now rewrite IH].
Qed.


Lemma find_update_first {A : Type} (p : A -> bool) (f : A -> A) (l : list A) :
  (forall x, p (f x) = p x) ->
  find p (update_first p f l) = option_map f (find p l).
Proof.
  intros Hp. induction l as [|x t IH]; simpl; [reflexivity|].
  destruct (p x) eqn:Hx; simpl.
  - now rewrite Hp, Hx.
  - now rewrite Hx.
Qed.

Lemma update_first_undo {A : Type} (p : A -> bool) (f g : A -> A) (l : list A)
  (x : A) :
  (forall y, p (f y) = p y) ->
  find p l = Some x -> g (f x) = x ->
  update_first p g (update_first p f l) = l.
Proof.
  intros Hp. induction l as [|y t IH]; simpl; [discriminate|].
  destruct (p y) eqn:Hy; simpl.
  - intros [= ->] Hg. now rewrite Hp, Hy, Hg.
  - intros Hf Hg. now rewrite Hy, IH.
Qed.

Lemma delete_first_none {A : Type} (p : A -> bool) (l : list A) :
  find p l = None -> delete_first p l = l.
Proof.
  induction l as [|x t IH]; simpl; [reflexivity|].
  destruct (p x); [discriminate|]. intros H. now rewrite IH.
Qed.

Lemma delete_first_length {A : Type} (p : A -> bool) (l : list A) (x : A) :
  find p l = Some x -> S (List.length (delete_first p l)) = List.length l.
Proof.
  induction l as [|y t IH]; simpl; [discriminate|].
  destruct (p y); [reflexivity|]. intros H. simpl. now rewrite IH.
Qed.

Lemma delete_first_keeps {A : Type} (p : A -> bool) (l : list A) (y : A) :
  p y = false -> In y l -> In y (delete_first p l).
Proof.
  intros Hy. induction l as [|x t IH]; simpl; [tauto|].
  intros [->|Hin].
  - rewrite Hy. now left.
  - destruct (p x); [exact Hin|]. right. now apply IH.
Qed.

Lemma delete_first_subset {A : Type} (p : A -> bool) (l : list A) (y : A) :
  In y (delete_first p l) -> In y l.
Proof.
  induction l as [|x t IH]; simpl; [tauto|].
  destruct (p x); [now right|]. intros [->|Hin]; [now left|right; now apply IH].
Qed.

Lemma delete_all_In {A : Type} (p : A -> bool) (l : list A) (y : A) :
  In y (delete_all p l) <-> In y l /\ p y = false.
Proof.
  unfold delete_all. rewrite filter_In.
  destruct (p y); simpl; intuition congruence.
Qed.

Lemma delete_all_twice {A : Type} (p : A -> bool) (l : list A) :
  delete_all p (delete_all p l) = delete_all p l.
Proof.
  unfold delete_all. induction l as [|x t IH]; simpl; [reflexivity|].
  destruct (p x) eqn:Hx; simpl; [exact IH|]. now rewrite Hx, IH.
Qed.

(** *** More on the chat call *)

Section ChatCalls.
Context {E : Env}.

Lemma converse_raise_last (ums : list UserMessage) (chat : LlmChat)
  (e : PyException) :
  snd (converse chat ums) = Raise e ->
  exists pre c,
    fst (converse chat ums) = (pre ++ [c])%list /\
    forallb call_ok pre = true /\
    complete (fst c) (snd c) = inl (str e).
Proof.
  revert chat. induction ums as [|um rest IH]; intros chat; simpl.
  - discriminate.
  - destruct (complete chat um) as [err|reply] eqn:Hc.
    + simpl. intros [= <-]. exists [], (chat, um). repeat split. exact Hc.
    + specialize (IH (remember chat um reply)).
      destruct (converse (remember chat um reply) rest) as [calls r].
      simpl in *. intros Hr. destruct (IH Hr) as (pre & c & -> & Hf & Hl).
      exists ((chat, um) :: pre), c. repeat split; [|exact Hl].
      simpl. unfold call_ok at 1. simpl. now rewrite Hc.
Qed.

Lemma converse_config (ums : list UserMessage) (chat : LlmChat) :
  Forall (fun c => api_key (fst c) = api_key chat /\
                   chat_session_id (fst c) = chat_session_id chat /\
                   provider (fst c) = provider chat /\
                   model (fst c) = model chat)
         (fst (converse chat ums)) /\
  forall chat', snd (converse chat ums) = Ok chat' ->
    api_key chat' = api_key chat /\
    chat_session_id chat' = chat_session_id chat /\
    provider chat' = provider chat /\
    model chat' = model chat.
Proof.
  revert chat. induction ums as [|um rest IH]; intros chat; simpl.
  - split; [constructor|]. intros chat' [= ->]. repeat split.
  - destruct (complete chat um) as [err|reply].
    + split; [repeat constructor|]. discriminate.
    + destruct (IH (remember chat um reply)) as [Hall Hfin].
      destruct (converse (remember chat um reply) rest) as [calls r].
      simpl in *. split.
      * constructor; [repeat split|exact Hall].
      * exact Hfin.
Qed.

(** The first failing provider call ends the conversation, and its
    text is what the 500 response reports. *)
Theorem failed_call_is_last_and_reported (request : ChatRequest) (w : World) :
  truthy EMERGENT_LLM_KEY = true ->
  let out := chat_with_ai request w in
  let calls := calls_since w (snd out) in
  forallb call_ok calls = false ->
  exists pre c s,
    calls = (pre ++ [c])%list /\
    forallb call_ok pre = true /\
    complete (fst c) (snd c) = inl s /\
    fst out = Raise (mkHTTPException 500 ("AI service error: " ++ s)).
Proof.
  intros Hkey out calls. subst calls out.
  destruct (current_message_total request) as [um Hum].
  rewrite (chat_with_ai_run _ _ _ Hkey Hum). cbv zeta.
  set (chat := open_chat _ _). set (plan := replay_plan _).
  destruct (converse chat plan) as [calls [chat'|e]] eqn:Hcv.
  - assert (Hs : snd (converse chat plan) = Ok chat') by now rewrite Hcv.
    destruct (converse_ok _ _ _ Hs) as [_ Hf]. rewrite Hcv in Hf. simpl in Hf.
    destruct (complete chat' um) as [err|reply] eqn:Hc; simpl.
    + rewrite (calls_since_log w (calls ++ [(chat', um)])) by reflexivity.
      intros _. exists calls, (chat', um), err. repeat split; assumption.
    + rewrite (calls_since_log w (calls ++ [(chat', um)])) by reflexivity.
      rewrite forallb_app, Hf. simpl. unfold call_ok. simpl. rewrite Hc.
      discriminate.
  - assert (Hs : snd (converse chat plan) = Raise e) by now rewrite Hcv.
    destruct (converse_raise_last _ _ _ Hs) as (pre & c & Hp & Hf & Hl).
    rewrite Hcv in Hp. simpl in Hp. simpl.
    rewrite (calls_since_log w calls) by reflexivity.
    intros _. exists pre, c, (str e). repeat split; assumption.
Qed.

(** Without the credential the call fails at once: a 500 saying so, no
    provider call, no pet lookup, nothing stored. *)
Theorem unconfigured_chat_fails_fast (request : ChatRequest) (w : World) :
  EMERGENT_LLM_KEY = EmptyString ->
  let out := chat_with_ai request w in
  fst out = Raise (mkHTTPException 500 "AI service not configured") /\
  snd out = w /\
  calls_since w (snd out) = [].
Proof.
  intros Hkey out. subst out.
  rewrite chat_unconfigured by (now rewrite Hkey).
  simpl. repeat split. apply calls_since_same.
Qed.

(** A chat call costs at most eleven provider calls: ten replayed turns
    and the new one. *)
Theorem at_most_eleven_provider_calls (request : ChatRequest) (w : World) :
  List.length (calls_since w (snd (chat_with_ai request w))) <= 11.
Proof.
  destruct (chat_cases request w) as [[_ Hr]|[_ [um [_ Ho]]]].
  - rewrite Hr. simpl. rewrite calls_since_same. simpl. lia.
  - destruct (outcome_calls _ _ _ _ Ho) as [_ [k Hk]].
    rewrite <- (length_map snd), Hk.
    rewrite length_firstn, length_app. simpl.
    pose proof (replay_plan_length
                  (fetch_history (req_session_id request) 20 (chat_messages w))).
    lia.
Qed.

(** Every provider call of a chat goes through a session that holds the
    module's credential, the request's session id, and the model
    openai / gpt-4o. *)
Theorem provider_session_settings (request : ChatRequest) (w : World)
  (c : LlmChat * UserMessage) :
  In c (calls_since w (snd (chat_with_ai request w))) ->
  api_key (fst c) = EMERGENT_LLM_KEY /\
  chat_session_id (fst c) = req_session_id request /\
  provider (fst c) = "openai" /\
  model (fst c) = "gpt-4o".
Proof.
  destruct (chat_cases request w) as [[_ Hr]|[Hkey [um [Hum _]]]].
  - rewrite Hr. simpl. rewrite calls_since_same. intros [].
  - rewrite (chat_with_ai_run _ _ _ Hkey Hum). cbv zeta.
    set (chat := open_chat _ _). set (plan := replay_plan _).
    destruct (converse_config plan chat) as [Hall Hfin].
    destruct (converse chat plan) as [calls [chat'|e]]; simpl in Hall, Hfin.
    + specialize (Hfin chat' eq_refl).
      assert (Hin : In c (calls ++ [(chat', um)]) ->
                    api_key (fst c) = EMERGENT_LLM_KEY /\
                    chat_session_id (fst c) = req_session_id request /\
                    provider (fst c) = "openai" /\ model (fst c) = "gpt-4o").
      { intros H. apply in_app_or in H as [H|[<-|[]]].
        - rewrite Forall_forall in Hall. exact (Hall _ H).
        - exact Hfin. }
      destruct (complete chat' um); simpl;
        rewrite (calls_since_log w (calls ++ [(chat', um)])) by reflexivity;
        exact Hin.
    + simpl. rewrite (calls_since_log w calls) by reflexivity.
      intros H. rewrite Forall_forall in Hall. exact (Hall _ H).
Qed.

(** A chat call, whatever its outcome, leaves the pets and the history
    of every other session as they were, and all it adds to the store
    belongs to the request's session. *)
Theorem chat_touches_one_session (request : ChatRequest) (w : World) :
  let w' := snd (chat_with_ai request w) in
  pets w' = pets w /\
  (exists added,
     chat_messages w' = (chat_messages w ++ added)%list /\
     Forall (fun m => session_id m = req_session_id request) added) /\
  forall sid n, sid <> req_session_id request ->
    fetch_history sid n (chat_messages w') = fetch_history sid n (chat_messages w).
Proof.
  cbv zeta.
  assert (H : pets (snd (chat_with_ai request w)) = pets w /\
              exists added,
                chat_messages (snd (chat_with_ai request w))
                  = (chat_messages w ++ added)%list /\
                Forall (fun m => session_id m = req_session_id request) added).
  { destruct (chat_cases request w) as [[_ Hr]|[_ [um [_ Ho]]]].
    - rewrite Hr. simpl. split; [reflexivity|].
      exists []. split; [now rewrite app_nil_r|constructor].
    - destruct Ho as [pre chat' reply Hm Hf Hc | calls err k Hn Hf Hm]; simpl.
      + split; [reflexivity|]. eexists. split; [reflexivity|].
        repeat constructor.
      + split; [reflexivity|].
        exists []. split; [now rewrite app_nil_r|constructor]. }
  destruct H as [Hp (added & Hcm & Hall)].
  split; [exact Hp|]. split; [exists added; split; assumption|].
  intros sid n Hne. rewrite Hcm. unfold fetch_history, find_session.
  rewrite filter_app.
  replace (filter (fun m => session_id m =? sid) added) with (@nil ChatMessage).
  - now rewrite app_nil_r.
  - symmetry. clear Hcm. induction added as [|m t IH]; [reflexivity|].
    inversion Hall as [|? ? Hm Ht]; subst. simpl.
    rewrite Hm. destruct (String.eqb_spec (req_session_id request) sid) as [Heq|_].
    + exfalso. apply Hne. now symmetry.
    + now apply IH.
Qed.

End ChatCalls.

(** *** Reading and clearing the history *)

Section History.
Context {E : Env}.

Lemma ascending_nondecreasing (l : list ChatMessage) :
  ascending l -> nondecreasing (map created_at l).
Proof.
  induction l as [|x t IH]; simpl; [tauto|].
  intros [Hx Ht]. split; [|exact (IH Ht)].
  apply Forall_map. exact Hx.
Qed.

Lemma entry_times (l : list ChatMessage) :
  map h_created_at (map entry_of l) = map created_at l.
Proof. rewrite map_map. reflexivity. Qed.

Lemma get_chat_history_run {X : Type} (sid : string) (limit : nat) (w : World) :
  get_chat_history (X := X) sid limit w
  = (Ok (map entry_of (fetch_history sid limit (chat_messages w))), w).
Proof. reflexivity. Qed.

Lemma fetch_history_In (sid : string) (n : nat) (l : list ChatMessage)
  (m : ChatMessage) :
  In m (fetch_history sid n l) -> In m l /\ session_id m = sid.
Proof.
  unfold fetch_history, to_list, find_session. intros H.
  assert (H' : In m (sort_created_at (filter (fun m => session_id m =? sid) l))).
  { rewrite <- (firstn_skipn n (sort_created_at _)). apply in_or_app. now left. }
  apply sort_created_at_In, filter_In in H' as [Hin Hs].
  split; [exact Hin|]. now apply String.eqb_eq.
Qed.

(** Reading the history changes nothing and returns at most [limit]
    entries, in non-decreasing [created_at] order, each one the role,
    content and time of a stored turn of that session. *)
Theorem history_bounded_ordered (sid : string) (limit : nat) (w : World) :
  exists h,
    get_chat_history (X := HTTPException) sid limit w = (Ok h, w) /\
    List.length h <= limit /\
    nondecreasing (map h_created_at h) /\
    forall e, In e h ->
      exists m, In m (chat_messages w) /\ session_id m = sid /\ e = entry_of m.
Proof.
  eexists. split; [apply get_chat_history_run|].
  split; [rewrite length_map; apply fetch_history_length|].
  split.
  - rewrite entry_times. apply ascending_nondecreasing, fetch_history_ascending.
  - intros e He. apply in_map_iff in He as (m & <- & Hm).
    apply fetch_history_In in Hm as [Hin Hs]. exists m. repeat split; assumption.
Qed.

(** A session with at most [limit] turns is returned whole; a longer
    one is cut to its [limit] oldest turns: every turn left out is at
    least as recent as every entry returned. *)
Theorem history_keeps_oldest (sid : string) (limit : nat) (w : World) :
  exists h,
    get_chat_history (X := HTTPException) sid limit w = (Ok h, w) /\
    (List.length (session_turns sid w) <= limit ->
     h = map entry_of (session_turns sid w)) /\
    (limit <= List.length (session_turns sid w) -> List.length h = limit) /\
    forall e m, In e h -> In m (skipn limit (session_turns sid w)) ->
      (h_created_at e <= created_at m)%Z.
Proof.
  eexists. split; [apply get_chat_history_run|]. split; [|split].
  - intros Hle. unfold fetch_history, to_list, session_turns in *.
    now rewrite firstn_all2.
  - intros Hle. rewrite length_map. unfold fetch_history, to_list, session_turns in *.
    rewrite length_firstn. lia.
  - intros e m He Hm. apply in_map_iff in He as (x & <- & Hx). simpl.
    exact (fetch_history_oldest _ _ _ _ _ Hx Hm).
Qed.





(** Clearing a session reports success and leaves no turn of it: its
    history reads back empty, and clearing again changes nothing. *)
Theorem clear_history_empties_session (sid : string) (limit : nat) (w : World) :
  let w' := snd (clear_chat_history (X := HTTPException) sid w) in
  fst (clear_chat_history (X := HTTPException) sid w) = Ok "Chat history cleared" /\
  get_chat_history (X := HTTPException) sid limit w' = (Ok [], w') /\
  clear_chat_history (X := HTTPException) sid w' = (Ok "Chat history cleared", w').
Proof.
  cbv zeta. split; [reflexivity|]. split.
  - rewrite get_chat_history_run. simpl. f_equal.
    unfold fetch_history, find_session, delete_all.
    replace (filter _ (filter _ (chat_messages w))) with (@nil ChatMessage);
      [destruct limit; reflexivity|].
    symmetry. induction (chat_messages w) as [|m t IH]; [reflexivity|].
    simpl. destruct (session_id m =? sid) eqn:Hs; simpl; [exact IH|].
    now rewrite Hs.
  - unfold clear_chat_history. simpl. now rewrite delete_all_twice.
Qed.


End History.

(** *** Pets *)

Section Pets.
Context {E : Env}.

Lemma find_app_last {A : Type} (p : A -> bool) (l : list A) (x : A) :
  find p l = None -> p x = true -> find p (l ++ [x]) = Some x.
Proof.
  induction l as [|y t IH]; simpl; intros Hf Hx.
  - now rewrite Hx.
  - destruct (p y); [discriminate|]. now apply IH.
Qed.

Lemma set_pet_fields_empty (u : PetUpdate) (p : Pet) :
  update_data_nonempty u = false -> set_pet_fields u p = p.
Proof.
  unfold update_data_nonempty, set_pet_fields.
  destruct u as [n b t c br wt g ph]; destruct p. simpl.
  destruct n, b, t, c, br, wt, g, ph; simpl; try discriminate. reflexivity.
Qed.

Lemma set_pets_same (w : World) : set_pets w (pets w) = w.
Proof. destruct w. reflexivity. Qed.

Lemma update_pet_run (pid : string) (u : PetUpdate) (w : World) (p : Pet) :
  find (fun q => Pet_id q =? pid) (pets w) = Some p ->
  update_pet pid u w =
  (Ok (set_pet_fields u p),
   if update_data_nonempty u
   then set_pets w (update_first (fun q => Pet_id q =? pid)
                                 (set_pet_fields u) (pets w))
   else w).
Proof.
  intros Hf. unfold update_pet, bind, find_one_pet. rewrite Hf.
  destruct (update_data_nonempty u) eqn:Hu.
  - simpl. rewrite find_update_first by reflexivity. rewrite Hf. reflexivity.
  - unfold ret. rewrite Hf. now rewrite (set_pet_fields_empty _ _ Hu).
Qed.

(** A pet created under an id no stored pet has is stored last; the
    pet returned and the pet stored carry that id and every field of
    the request; the chat turns are not touched, and a lookup by the id
    returns the stored pet, with that id and those fields. *)
Theorem created_pet_can_be_fetched (c : PetCreate) (w : World) :
  find (fun q => Pet_id q =? uuid4 (clock w)) (pets w) = None ->
  exists p w1 q,
    create_pet (X := HTTPException) c w = (Ok p, w1) /\
    Pet_id p = uuid4 (clock w) /\
    Pet_created_at p = utcnow (clock w) /\
    name p = pc_name c /\ birth_date p = pc_birth_date c /\
    pet_type p = pc_pet_type c /\
    custom_pet_type p = pc_custom_pet_type c /\
    breed p = pc_breed c /\ weight p = pc_weight c /\
    gender p = pc_gender c /\ photo p = pc_photo c /\
    pets w1 = (pets w ++ [q])%list /\
    chat_messages w1 = chat_messages w /\
    get_pet (Pet_id p) w1 = (Ok q, w1) /\
    Pet_id q = Pet_id p /\
    name q = pc_name c /\ birth_date q = pc_birth_date c /\
    pet_type q = pc_pet_type c /\
    custom_pet_type q = pc_custom_pet_type c /\
    breed q = pc_breed c /\ weight q = pc_weight c /\
    gender q = pc_gender c /\ photo q = pc_photo c.
Proof.
  intros Hfresh. eexists _, _, _. split; [reflexivity|].
  do 12 (split; [reflexivity|]). split.
  - unfold get_pet, bind, find_one_pet. simpl.
    rewrite (find_app_last _ _ _ Hfresh); [reflexivity|].
    simpl. apply String.eqb_refl.
  - repeat split.
Qed.

(** A lookup never changes the store; it returns the first stored pet
    with the id, and answers 404 exactly when no stored pet has it. *)
Theorem get_pet_finds_or_404 (pid : string) (w : World) :
  (exists p, get_pet pid w = (Ok p, w) /\ In p (pets w) /\ Pet_id p = pid) \/
  (get_pet pid w = (Raise (mkHTTPException 404 "Pet not found"), w) /\
   forall p, In p (pets w) -> Pet_id p <> pid).
Proof.
  unfold get_pet, bind, find_one_pet.
  destruct (find (fun q => Pet_id q =? pid) (pets w)) as [p|] eqn:Hf.
  - left. exists p. apply find_some in Hf as [Hin Hid].
    split; [reflexivity|]. split; [exact Hin|]. now apply String.eqb_eq.
  - right. split; [reflexivity|]. intros p Hin Hid.
    pose proof (find_none _ _ Hf p Hin) as Hn. simpl in Hn.
    rewrite Hid, String.eqb_refl in Hn. discriminate.
Qed.

(** An update keeps the pet's id and creation time, writes the fields
    the body gives and keeps the others (a field left out cannot be
    cleared); the store keeps its size and its chat turns, and a lookup
    afterwards returns the updated pet. *)
Theorem update_pet_merges (pid : string) (u : PetUpdate) (w : World) (p : Pet) :
  find (fun q => Pet_id q =? pid) (pets w) = Some p ->
  exists p' w',
    update_pet pid u w = (Ok p', w') /\
    Pet_id p' = Pet_id p /\
    Pet_created_at p' = Pet_created_at p /\
    name p' = merge (pu_name u) (name p) /\
    birth_date p' = merge (pu_birth_date u) (birth_date p) /\
    pet_type p' = merge (pu_pet_type u) (pet_type p) /\
    custom_pet_type p' = merge_opt (pu_custom_pet_type u) (custom_pet_type p) /\
    breed p' = merge_opt (pu_breed u) (breed p) /\
    weight p' = merge_opt (pu_weight u) (weight p) /\
    gender p' = merge_opt (pu_gender u) (gender p) /\
    photo p' = merge_opt (pu_photo u) (photo p) /\
    (pu_breed u = None -> breed p' = breed p) /\
    List.length (pets w') = List.length (pets w) /\
    chat_messages w' = chat_messages w /\
    get_pet pid w' = (Ok p', w').
Proof.
  intros Hf. eexists _, _. split; [exact (update_pet_run _ _ _ _ Hf)|].
  repeat split.
  - intros Hb. simpl. now rewrite Hb.
  - destruct (update_data_nonempty u); [|reflexivity].
    simpl. apply update_first_length.
  - destruct (update_data_nonempty u); reflexivity.
  - unfold get_pet, bind, find_one_pet.
    destruct (update_data_nonempty u) eqn:Hu.
    + simpl. rewrite find_update_first by reflexivity. now rewrite Hf.
    + rewrite Hf. now rewrite (set_pet_fields_empty _ _ Hu).
Qed.

(** An update whose body gives no field writes nothing: it returns the
    stored pet and the store is the same. *)
Theorem empty_update_changes_nothing (pid : string) (u : PetUpdate) (w : World)
  (p : Pet) :
  find (fun q => Pet_id q =? pid) (pets w) = Some p ->
  update_data_nonempty u = false ->
  update_pet pid u w = (Ok p, w).
Proof.
  intros Hf Hu. rewrite (update_pet_run _ _ _ _ Hf), Hu.
  now rewrite (set_pet_fields_empty _ _ Hu).
Qed.

Lemma delete_pet_run (pid : string) (d : Database) (p : Pet) :
  find (fun q => Pet_id q =? pid) (pets (core d)) = Some p ->
  delete_pet pid d =
  (Ok "Pet deleted successfully",
   mkDatabase
     (set_pets (core d) (delete_first (fun q => Pet_id q =? pid) (pets (core d))))
     (delete_all (fun c => cl_pet_id c =? pid) (checklists d))
     (delete_all (fun v => visit_pet_id v =? pid) (vet_visits d))
     (delete_all (fun r => rem_pet_id r =? pid) (reminders d))).
Proof.
  intros Hf. unfold delete_pet, dbind, lift, deleted_count. simpl.
  rewrite Hf. reflexivity.
Qed.

(** Deleting a stored pet removes one pet and every checklist, vet
    visit and reminder of that pet, keeps those of the other pets, and
    keeps all chat turns, also the ones that refer to the pet. *)
Theorem delete_pet_cascades (pid : string) (d : Database) (p : Pet) :
  find (fun q => Pet_id q =? pid) (pets (core d)) = Some p ->
  let d' := snd (delete_pet pid d) in
  fst (delete_pet pid d) = Ok "Pet deleted successfully" /\
  S (List.length (pets (core d'))) = List.length (pets (core d)) /\
  (forall q, In q (pets (core d)) -> Pet_id q <> pid -> In q (pets (core d'))) /\
  (forall c, In c (checklists d') <-> In c (checklists d) /\ cl_pet_id c <> pid) /\
  (forall v, In v (vet_visits d') <-> In v (vet_visits d) /\ visit_pet_id v <> pid) /\
  (forall r, In r (reminders d') <-> In r (reminders d) /\ rem_pet_id r <> pid) /\
  chat_messages (core d') = chat_messages (core d).
Proof.
  intros Hf. cbv zeta. rewrite (delete_pet_run _ _ _ Hf). simpl.
  split; [reflexivity|].
  split; [exact (delete_first_length _ _ _ Hf)|].
  split.
  { intros q Hin Hne. apply delete_first_keeps; [|exact Hin].
    simpl. now apply String.eqb_neq. }
  split; [|split; [|split; [|reflexivity]]].
  - intros c. rewrite delete_all_In. simpl. now rewrite String.eqb_neq.
  - intros v. rewrite delete_all_In. simpl. now rewrite String.eqb_neq.
  - intros r. rewrite delete_all_In. simpl. now rewrite String.eqb_neq.
Qed.

(** For an id no stored pet has, the lookup, the update and the delete
    answer 404 and change nothing; in particular the delete does not
    cascade to records that refer to that id. *)
Theorem unknown_pet_is_404 (pid : string) (u : PetUpdate) (d : Database) :
  find (fun q => Pet_id q =? pid) (pets (core d)) = None ->
  get_pet pid (core d)
    = (Raise (mkHTTPException 404 "Pet not found"), core d) /\
  update_pet pid u (core d)
    = (Raise (mkHTTPException 404 "Pet not found"), core d) /\
  delete_pet pid d = (Raise (mkHTTPException 404 "Pet not found"), d).
Proof.
  intros Hf. split; [|split].
  - unfold get_pet, bind, find_one_pet. now rewrite Hf.
  - unfold update_pet, bind, find_one_pet. now rewrite Hf.
  - unfold delete_pet, dbind, lift, deleted_count. simpl. rewrite Hf. simpl.
    rewrite (delete_first_none _ _ Hf), set_pets_same.
    destruct d. reflexivity.
Qed.

End Pets.

(** *** Reminders *)

Section Reminders.
Context {E : Env}.

Lemma set_reminders_same (d : Database) : set_reminders d (reminders d) = d.
Proof. destruct d. reflexivity. Qed.

Lemma set_is_active_undo (r : Reminder) (b : bool) :
  set_is_active (is_active r) (set_is_active b r) = r.
Proof. destruct r. reflexivity. Qed.

(** Toggling a stored reminder returns the opposite of its flag, and
    toggling it again returns the flag and restores the database. *)
Theorem toggle_reminder_twice_restores (rid : string) (d : Database)
  (r : Reminder) :
  find (fun x => rem_id x =? rid) (reminders d) = Some r ->
  exists d1,
    toggle_reminder rid d = (Ok (negb (is_active r)), d1) /\
    find (fun x => rem_id x =? rid) (reminders d1)
      = Some (set_is_active (negb (is_active r)) r) /\
    toggle_reminder rid d1 = (Ok (is_active r), d).
Proof.
  intros Hf. eexists. split.
  { unfold toggle_reminder, dbind, find_one_reminder. rewrite Hf. reflexivity. }
  split.
  { simpl. rewrite find_update_first by reflexivity. now rewrite Hf. }
  unfold toggle_reminder, dbind, find_one_reminder. simpl.
  rewrite find_update_first by reflexivity. rewrite Hf. simpl.
  rewrite negb_involutive. unfold dret, set_reminders. simpl.
  rewrite (update_first_undo _ _ _ _ r); try reflexivity; try assumption.
  - destruct d. reflexivity.
  - apply set_is_active_undo.
Qed.

(** An update writes every field of the body, also a missing
    description or date, and keeps the reminder's id, its active flag
    and its creation time; nothing else in the database changes. *)
Theorem update_reminder_keeps_identity (rid : string) (u : ReminderCreate)
  (d : Database) (r : Reminder) :
  find (fun x => rem_id x =? rid) (reminders d) = Some r ->
  exists r' d',
    update_reminder rid u d = (Ok r', d') /\
    rem_id r' = rem_id r /\
    is_active r' = is_active r /\
    rem_created_at r' = rem_created_at r /\
    rem_pet_id r' = rc_pet_id u /\
    rem_title r' = rc_title u /\
    rem_description r' = rc_description u /\
    reminder_time r' = rc_reminder_time u /\
    reminder_date r' = rc_reminder_date u /\
    rem_is_recurring r' = rc_is_recurring u /\
    recurrence_days r' = rc_recurrence_days u /\
    rem_category r' = rc_category u /\
    find (fun x => rem_id x =? rid) (reminders d') = Some r' /\
    List.length (reminders d') = List.length (reminders d) /\
    core d' = core d /\ checklists d' = checklists d /\
    vet_visits d' = vet_visits d.
Proof.
  intros Hf. exists (set_reminder_fields u r). eexists. split.
  { unfold update_reminder, dbind, find_one_reminder. rewrite Hf. simpl.
    rewrite find_update_first by reflexivity. rewrite Hf. reflexivity. }
  simpl. repeat split.
  - rewrite find_update_first by reflexivity. now rewrite Hf.
  - apply update_first_length.
Qed.

(** The listing changes nothing and returns at most 100 stored
    reminders, all with the requested active flag and, when a
    non-empty pet id is given, of that pet; with at most 100 reminders
    stored, every stored reminder that fits is returned. *)
Theorem get_reminders_filters (pet : option string) (active : bool)
  (d : Database) :
  exists l,
    get_reminders (X := HTTPException) pet active d = (Ok l, d) /\
    List.length l <= 100 /\
    (forall r, In r l ->
       In r (reminders d) /\ is_active r = active /\
       (forall p, pet = Some p -> p <> EmptyString -> rem_pet_id r = p)) /\
    (List.length (reminders d) <= 100 ->
     forall r, In r (reminders d) -> is_active r = active ->
       (truthy_opt pet = false \/ pet = Some (rem_pet_id r)) -> In r l).
Proof.
  eexists. split; [reflexivity|]. split; [apply firstn_le_length|]. split.
  - intros r Hin.
    assert (Hin' : In r (filter (fun r => Bool.eqb (is_active r) active
                                         && pet_query pet (rem_pet_id r))
                                (reminders d))).
    { rewrite <- (firstn_skipn 100 (filter _ _)). apply in_or_app. now left. }
    apply filter_In in Hin' as [Hs Hq]. apply andb_true_iff in Hq as [Ha Hp].
    split; [exact Hs|]. split; [now apply eqb_prop|].
    intros p -> Hne. unfold pet_query in Hp. simpl in Hp.
    destruct p; [congruence|]. simpl in Hp. now apply String.eqb_eq.
  - intros Hlen r Hin Ha Hp. rewrite firstn_all2.
    + apply filter_In. split; [exact Hin|]. apply andb_true_iff. split.
      * rewrite Ha. apply eqb_reflx.
      * unfold pet_query. destruct Hp as [Hp| ->]; [now rewrite Hp|].
        simpl. destruct (truthy (rem_pet_id r)); [apply String.eqb_refl|reflexivity].
    + etransitivity; [apply filter_length_le|exact Hlen].
Qed.

(** A created reminder is active, is stored last, and shows in the
    listing of the active reminders of its pet when fewer than 100
    reminders were stored. *)
Theorem created_reminder_is_listed (rc : ReminderCreate) (d : Database) :
  List.length (reminders d) < 100 ->
  exists r d1 l,
    create_reminder (X := HTTPException) rc d = (Ok r, d1) /\
    is_active r = true /\
    rem_id r = uuid4 (clock (core d)) /\
    rem_pet_id r = rc_pet_id rc /\
    reminders d1 = (reminders d ++ [r])%list /\
    get_reminders (X := HTTPException) (Some (rc_pet_id rc)) true d1 = (Ok l, d1) /\
    In r l.
Proof.
  intros Hlen. eexists _, _, _.
  split; [unfold create_reminder, dbind, fresh, lift; simpl; reflexivity|].
  repeat split. unfold set_reminders. cbn [reminders]. rewrite firstn_all2.
  - apply filter_In. split; [apply in_or_app; right; now left|].
    simpl. unfold pet_query. simpl.
    destruct (truthy (rc_pet_id rc)); [apply String.eqb_refl|reflexivity].
  - etransitivity; [apply filter_length_le|].
    rewrite length_app. simpl. lia.
Qed.

Lemma find_delete_first_unique {A : Type} (key : A -> string) (k : string)
  (l : list A) :
  NoDup (map key l) ->
  find (fun x => key x =? k) (delete_first (fun x => key x =? k) l) = None.
Proof.
  induction l as [|x t IH]; simpl; intros Hnd; [reflexivity|].
  inversion Hnd as [|? ? Hx Ht]; subst.
  destruct (key x =? k) eqn:Hk.
  - apply String.eqb_eq in Hk. subst k.
    destruct (find (fun y => key y =? key x) t) as [y|] eqn:Hf; [|reflexivity].
    apply find_some in Hf as [Hin Hy]. apply String.eqb_eq in Hy.
    exfalso. apply Hx. rewrite <- Hy. now apply in_map.
  - simpl. rewrite Hk. now apply IH.
Qed.

(** Deleting a stored reminder removes exactly one reminder, keeps all
    those with another id, and touches no other collection; when the
    stored ids are distinct, the id is unknown afterwards. *)
Theorem delete_reminder_removes_one (rid : string) (d : Database) (r : Reminder) :
  find (fun x => rem_id x =? rid) (reminders d) = Some r ->
  exists d',
    delete_reminder rid d = (Ok "Reminder deleted", d') /\
    S (List.length (reminders d')) = List.length (reminders d) /\
    (forall x, In x (reminders d') -> In x (reminders d)) /\
    (forall x, In x (reminders d) -> rem_id x <> rid -> In x (reminders d')) /\
    core d' = core d /\ checklists d' = checklists d /\
    vet_visits d' = vet_visits d /\
    (NoDup (map rem_id (reminders d)) ->
     toggle_reminder rid d'
       = (Raise (mkHTTPException 404 "Reminder not found"), d')).
Proof.
  intros Hf. eexists. split.
  { unfold delete_reminder, dbind, deleted_count. rewrite Hf. reflexivity. }
  simpl. split; [exact (delete_first_length _ _ _ Hf)|].
  split; [intros x; apply delete_first_subset|].
  split.
  { intros x Hin Hne. apply delete_first_keeps; [|exact Hin].
    now apply String.eqb_neq. }
  repeat split. intros Hnd.
  unfold toggle_reminder, dbind, find_one_reminder. simpl.
  now rewrite (find_delete_first_unique rem_id rid _ Hnd).
Qed.

(** For an id no stored reminder has, the toggle, the update and the
    delete answer 404 and change nothing. *)
Theorem unknown_reminder_is_404 (rid : string) (u : ReminderCreate)
  (d : Database) :
  find (fun x => rem_id x =? rid) (reminders d) = None ->
  toggle_reminder rid d
    = (Raise (mkHTTPException 404 "Reminder not found"), d) /\
  update_reminder rid u d
    = (Raise (mkHTTPException 404 "Reminder not found"), d) /\
  delete_reminder rid d
    = (Raise (mkHTTPException 404 "Reminder not found"), d).
Proof.
  intros Hf. split; [|split].
  - unfold toggle_reminder, dbind, find_one_reminder. now rewrite Hf.
  - unfold update_reminder, dbind, find_one_reminder. now rewrite Hf.
  - unfold delete_reminder, dbind, deleted_count. rewrite Hf. simpl.
    rewrite (delete_first_none _ _ Hf). now rewrite set_reminders_same.
Qed.

End Reminders.

(** *** Vet visits *)

Section VetVisits.
Context {E : Env}.

Lemma string_leb_trans (a b c : string) :
  (a <=? b) = true -> (b <=? c) = true -> (a <=? c) = true.
Proof.
  unfold String.leb. revert b c.
  induction a as [|x a IH]; intros [|y b] [|z c]; simpl;
    try reflexivity; try discriminate.
  unfold Ascii.compare.
  destruct (N.compare_spec (N_of_ascii x) (N_of_ascii y)) as [Hxy|Hxy|Hxy];
    destruct (N.compare_spec (N_of_ascii y) (N_of_ascii z)) as [Hyz|Hyz|Hyz];
    destruct (N.compare_spec (N_of_ascii x) (N_of_ascii z)) as [Hxz|Hxz|Hxz];
    try discriminate; try reflexivity; try lia.
  apply IH.
Qed.

Lemma insert_by_date_In (x y : VetVisit) (l : list VetVisit) :
  In y (insert_by_date x l) <-> y = x \/ In y l.
Proof.
  induction l as [|z t IH]; simpl.
  - intuition congruence.
  - destruct (visit_date z <=? visit_date x); simpl.
    + intuition congruence.
    + rewrite IH. intuition congruence.
Qed.

Lemma insert_by_date_sorted (x : VetVisit) (l : list VetVisit) :
  nonincreasing (map visit_date l) ->
  nonincreasing (map visit_date (insert_by_date x l)).
Proof.
  induction l as [|z t IH]; simpl; intros H.
  - split; [constructor|exact I].
  - destruct H as [Hz Ht].
    destruct (visit_date z <=? visit_date x) eqn:Hc; simpl.
    + repeat split; try assumption.
      constructor; [exact Hc|].
      eapply Forall_impl; [|exact Hz]. simpl. intros a Ha.
      exact (string_leb_trans _ _ _ Ha Hc).
    + split; [|exact (IH Ht)].
      apply Forall_forall. intros a Ha.
      apply in_map_iff in Ha as (v & <- & Hv).
      apply insert_by_date_In in Hv as [->|Hv].
      * destruct (String.leb_total (visit_date x) (visit_date z)) as [H|H];
          [exact H|congruence].
      * rewrite Forall_forall in Hz. apply Hz. now apply in_map.
Qed.

Lemma sort_visit_date_desc_sorted (l : list VetVisit) :
  nonincreasing (map visit_date (sort_visit_date_desc l)).
Proof.
  induction l as [|x t IH]; simpl; [exact I|].
  now apply insert_by_date_sorted.
Qed.

Lemma sort_visit_date_desc_In (y : VetVisit) (l : list VetVisit) :
  In y (sort_visit_date_desc l) <-> In y l.
Proof.
  induction l as [|x t IH]; simpl; [tauto|].
  rewrite insert_by_date_In, IH. intuition congruence.
Qed.

Lemma nonincreasing_app (a b : list string) :
  nonincreasing (a ++ b) -> nonincreasing a.
Proof.
  induction a as [|x t IH]; simpl; [tauto|].
  intros [Hx Ht]. apply Forall_app in Hx as [Hx _]. split; [exact Hx|exact (IH Ht)].
Qed.

(** The listing of the vet visits changes nothing and returns at most
    100 stored visits, latest visit date first, all of the pet when a
    non-empty pet id is given. *)
Theorem vet_visits_latest_first (pet : option string) (d : Database) :
  exists l,
    get_vet_visits (X := HTTPException) pet d = (Ok l, d) /\
    List.length l <= 100 /\
    nonincreasing (map visit_date l) /\
    forall v, In v l ->
      In v (vet_visits d) /\
      (forall p, pet = Some p -> p <> EmptyString -> visit_pet_id v = p).
Proof.
  eexists. split; [reflexivity|]. split; [apply firstn_le_length|]. split.
  - set (s := sort_visit_date_desc _).
    pose proof (sort_visit_date_desc_sorted
                  (filter (fun v => pet_query pet (visit_pet_id v)) (vet_visits d)))
      as H.
    fold s in H. rewrite <- (firstn_skipn 100 s), map_app in H.
    exact (nonincreasing_app _ _ H).
  - intros v Hin.
    assert (Hin' : In v (sort_visit_date_desc
                           (filter (fun v => pet_query pet (visit_pet_id v))
                                   (vet_visits d)))).
    { rewrite <- (firstn_skipn 100 (sort_visit_date_desc _)).
      apply in_or_app. now left. }
    apply sort_visit_date_desc_In, filter_In in Hin' as [Hs Hp].
    split; [exact Hs|]. intros p -> Hne. unfold pet_query in Hp. simpl in Hp.
    destruct p; [congruence|]. simpl in Hp. now apply String.eqb_eq.
Qed.

Lemma advance_zero (d : Database) : advance d 0 = d.
Proof. destruct d as [[ps cm pc k] cl vv rm]. reflexivity. Qed.

Lemma items_of_instructions_run {X : Type} (l : list string) (d : Database) :
  items_of_instructions (X := X) l d
  = (Ok (items_from (clock (core d)) l), advance d (List.length l)).
Proof.
  revert d. induction l as [|i rest IH]; intros d.
  - simpl. unfold dret. now rewrite advance_zero.
  - simpl. unfold dbind at 1. unfold fresh, lift. simpl.
    unfold dbind at 1. rewrite IH. unfold dret, items_from, advance. simpl.
    rewrite Nat.add_succ_r. reflexivity.
Qed.

(** Converting a stored visit that has instructions appends one
    checklist: it is of the visit's pet, titled after the visit's
    reason, in category vet, with one unchecked item per instruction,
    in order; the visit itself is not changed. *)
Theorem vet_instructions_become_checklist (vid : string) (d : Database)
  (v : VetVisit) :
  find (fun x => visit_id x =? vid) (vet_visits d) = Some v ->
  instructions v <> [] ->
  exists c d',
    convert_vet_to_checklist vid d = (Ok c, d') /\
    cl_pet_id c = visit_pet_id v /\
    cl_title c = "Vet Instructions - " ++ reason v /\
    cl_category c = "vet" /\
    map item_text (items c) = instructions v /\
    Forall (fun it => completed it = false /\ due_time it = None) (items c) /\
    map item_id (items c)
      = map uuid4 (seq (clock (core d)) (List.length (instructions v))) /\
    cl_id c = uuid4 (List.length (instructions v) + clock (core d)) /\
    checklists d' = (checklists d ++ [c])%list /\
    vet_visits d' = vet_visits d /\
    reminders d' = reminders d /\
    pets (core d') = pets (core d) /\
    chat_messages (core d') = chat_messages (core d).
Proof.
  intros Hf Hne.
  assert (Hrun : exists c d', convert_vet_to_checklist vid d = (Ok c, d') /\
     c = mkChecklist (uuid4 (List.length (instructions v) + clock (core d)))
           (visit_pet_id v) ("Vet Instructions - " ++ reason v) "vet"
           (items_from (clock (core d)) (instructions v)) false None
           (utcnow (List.length (instructions v) + clock (core d)))
           (utcnow (S (List.length (instructions v) + clock (core d)))) /\
     checklists d' = (checklists d ++ [c])%list /\
     vet_visits d' = vet_visits d /\ reminders d' = reminders d /\
     pets (core d') = pets (core d) /\
     chat_messages (core d') = chat_messages (core d)).
  { unfold convert_vet_to_checklist, dbind at 1, find_one_vet_visit.
    rewrite Hf. destruct (instructions v) as [|i rest] eqn:Hi; [congruence|].
    rewrite <- Hi. unfold dbind at 1. rewrite items_of_instructions_run.
    unfold dbind, fresh, lift, dret. simpl.
    eexists _, _. split; [reflexivity|]. repeat split. }
  destruct Hrun as (c & d' & Hr & Hc & Hcl & Hvv & Hrm & Hp & Hcm).
  exists c, d'. split; [exact Hr|]. subst c. simpl.
  repeat split; try assumption.
  - unfold items_from. rewrite map_map. simpl.
    clear. generalize (clock (core d)).
    induction (instructions v) as [|i rest IH]; intros k; simpl; [reflexivity|].
    now rewrite IH.
  - unfold items_from. apply Forall_forall. intros it Hin.
    apply in_map_iff in Hin as (p & <- & _). split; reflexivity.
  - unfold items_from. rewrite map_map. simpl.
    clear. generalize (clock (core d)).
    induction (instructions v) as [|i rest IH]; intros k; simpl; [reflexivity|].
    now rewrite IH.
Qed.

(** The conversion answers 404 for an unknown visit and 400 for a visit
    without instructions, and changes nothing in either case. *)
Theorem convert_without_instructions_fails (vid : string) (d : Database) :
  (find (fun x => visit_id x =? vid) (vet_visits d) = None ->
   convert_vet_to_checklist vid d
   = (Raise (mkHTTPException 404 "Vet visit not found"), d)) /\
  (forall v, find (fun x => visit_id x =? vid) (vet_visits d) = Some v ->
     instructions v = [] ->
     convert_vet_to_checklist vid d
     = (Raise (mkHTTPException 400 "No instructions to convert"), d)).
Proof.
  split.
  - intros Hf. unfold convert_vet_to_checklist, dbind, find_one_vet_visit.
    now rewrite Hf.
  - intros v Hf Hi. unfold convert_vet_to_checklist, dbind, find_one_vet_visit.
    now rewrite Hf, Hi.
Qed.


Lemma set_vet_visits_same (d : Database) : set_vet_visits d (vet_visits d) = d.
Proof. destruct d. reflexivity. Qed.

(** For an id no stored visit has, the lookup, the update and the
    delete answer 404 and change nothing. *)
Theorem unknown_vet_visit_is_404 (vid : string) (u : VetVisitCreate)
  (d : Database) :
  find (fun x => visit_id x =? vid) (vet_visits d) = None ->
  get_vet_visit vid d
    = (Raise (mkHTTPException 404 "Vet visit not found"), d) /\
  update_vet_visit vid u d
    = (Raise (mkHTTPException 404 "Vet visit not found"), d) /\
  delete_vet_visit vid d
    = (Raise (mkHTTPException 404 "Vet visit not found"), d).
Proof.
  intros Hf. split; [|split].
  - unfold get_vet_visit, dbind, find_one_vet_visit. now rewrite Hf.
  - unfold update_vet_visit, dbind, find_one_vet_visit. now rewrite Hf.
  - unfold delete_vet_visit, dbind, deleted_count. rewrite Hf. simpl.
    rewrite (delete_first_none _ _ Hf). now rewrite set_vet_visits_same.
Qed.

End VetVisits.

(** *** Checklists *)

Section Checklists.
Context {E : Env}.

Lemma update_first_split {A : Type} (p : A -> bool) (f : A -> A) (l : list A)
  (x : A) :
  find p l = Some x ->
  exists pre post,
    l = (pre ++ x :: post)%list /\
    Forall (fun y => p y = false) pre /\
    update_first p f l = (pre ++ f x :: post)%list.
Proof.
  induction l as [|y t IH]; simpl; [discriminate|].
  destruct (p y) eqn:Hy.
  - intros [= ->]. exists [], t. repeat split. constructor.
  - intros Hf. destruct (IH Hf) as (pre & post & -> & Hpre & Hu).
    exists (y :: pre), post. rewrite Hu. repeat split.
    constructor; assumption.
Qed.

Lemma update_first_map_inv {A B : Type} (p : A -> bool) (f : A -> A)
  (g : A -> B) (l : list A) :
  (forall x, g (f x) = g x) -> map g (update_first p f l) = map g l.
Proof.
  intros Hg. induction l as [|y t IH]; simpl; [reflexivity|].
  destruct (p y); simpl; [now rewrite Hg|now rewrite IH].
Qed.

Lemma set_checklists_same (d : Database) : set_checklists d (checklists d) = d.
Proof. destruct d. reflexivity. Qed.

Lemma toggle_checklist_item_run (cid iid : string) (b : bool) (d : Database)
  (c : Checklist) :
  find (fun x => cl_id x =? cid) (checklists d) = Some c ->
  toggle_checklist_item cid iid b d =
  (Ok true,
   set_checklists (advance d 1)
     (update_first (fun x => cl_id x =? cid)
        (set_items (update_first (fun it => item_id it =? iid)
                                 (set_completed b) (items c))
                   (utcnow (clock (core d))))
        (checklists d))).
Proof.
  intros Hf. unfold toggle_checklist_item, dbind at 1, find_one_checklist.
  rewrite Hf. reflexivity.
Qed.

(** Setting the flag of an item of a stored checklist reports success
    and rewrites the first item with that id, and only it: the items
    before and after it, and every id and text, stay as they were; the
    checklist gets a new update time and keeps its creation time. *)
Theorem item_flag_is_set (cid iid : string) (b : bool) (d : Database)
  (c : Checklist) (it : ChecklistItem) :
  find (fun x => cl_id x =? cid) (checklists d) = Some c ->
  find (fun x => item_id x =? iid) (items c) = Some it ->
  exists c' d' pre post,
    toggle_checklist_item cid iid b d = (Ok true, d') /\
    get_checklist cid d' = (Ok c', d') /\
    items c = (pre ++ it :: post)%list /\
    Forall (fun x => item_id x <> iid) pre /\
    items c' = (pre ++ mkChecklistItem (item_id it) (item_text it) b (due_time it)
                    :: post)%list /\
    updated_at c' = utcnow (clock (core d)) /\
    cl_created_at c' = cl_created_at c /\
    cl_id c' = cl_id c /\
    cl_pet_id c' = cl_pet_id c /\
    cl_title c' = cl_title c /\
    List.length (checklists d') = List.length (checklists d) /\
    vet_visits d' = vet_visits d /\
    reminders d' = reminders d.
Proof.
  intros Hf Hi.
  destruct (update_first_split _ (set_completed b) _ _ Hi)
    as (pre & post & Hitems & Hpre & Hup).
  eexists _, _, pre, post.
  split; [exact (toggle_checklist_item_run _ _ _ _ _ Hf)|].
  split.
  { unfold get_checklist, dbind, find_one_checklist. simpl.
    rewrite find_update_first by reflexivity. rewrite Hf. reflexivity. }
  simpl. split; [exact Hitems|]. split.
  { eapply Forall_impl; [|exact Hpre]. simpl. intros x Hx.
    now apply String.eqb_neq. }
  split; [exact Hup|]. repeat split. apply update_first_length.
Qed.


(** The listing of the checklists changes nothing and returns at most
    100 stored checklists, all of the pet and of the category asked
    for when these are given and not empty; with at most 100
    checklists stored and no filter, all of them are returned. *)
Theorem get_checklists_filters (pet category : option string) (d : Database) :
  exists l,
    get_checklists (X := HTTPException) pet category d = (Ok l, d) /\
    List.length l <= 100 /\
    (forall c, In c l ->
       In c (checklists d) /\
       (forall p, pet = Some p -> p <> EmptyString -> cl_pet_id c = p) /\
       (forall k, category = Some k -> k <> EmptyString -> cl_category c = k)) /\
    (List.length (checklists d) <= 100 ->
     truthy_opt pet = false -> truthy_opt category = false ->
     l = checklists d).
Proof.
  eexists. split; [reflexivity|]. split; [apply firstn_le_length|]. split.
  - intros c Hin.
    assert (Hin' : In c (filter (fun c => pet_query pet (cl_pet_id c)
                                         && category_query category (cl_category c))
                                (checklists d))).
    { rewrite <- (firstn_skipn 100 (filter _ _)). apply in_or_app. now left. }
    apply filter_In in Hin' as [Hs Hq]. apply andb_true_iff in Hq as [Hp Hc].
    split; [exact Hs|]. split.
    + intros p -> Hne. unfold pet_query in Hp. simpl in Hp.
      destruct p; [congruence|]. simpl in Hp. now apply String.eqb_eq.
    + intros k -> Hne. unfold category_query in Hc. simpl in Hc.
      destruct k; [congruence|]. simpl in Hc. now apply String.eqb_eq.
  - intros Hlen Hp Hc.
    assert (Hall : filter (fun c => pet_query pet (cl_pet_id c)
                                    && category_query category (cl_category c))
                          (checklists d) = checklists d).
    { unfold pet_query, category_query. rewrite Hp, Hc. simpl.
      induction (checklists d) as [|x t IH]; simpl; [reflexivity|].
      rewrite IH; [reflexivity|]. simpl in Hlen. lia. }
    rewrite Hall. now apply firstn_all2.
Qed.

(** For an id no stored checklist has, the lookup, the item route and
    the delete answer 404 and change nothing. *)
Theorem unknown_checklist_is_404 (cid iid : string) (b : bool) (d : Database) :
  find (fun x => cl_id x =? cid) (checklists d) = None ->
  get_checklist cid d
    = (Raise (mkHTTPException 404 "Checklist not found"), d) /\
  toggle_checklist_item cid iid b d
    = (Raise (mkHTTPException 404 "Checklist not found"), d) /\
  delete_checklist cid d
    = (Raise (mkHTTPException 404 "Checklist not found"), d).
Proof.
  intros Hf. split; [|split].
  - unfold get_checklist, dbind, find_one_checklist. now rewrite Hf.
  - unfold toggle_checklist_item, dbind, find_one_checklist. now rewrite Hf.
  - unfold delete_checklist, dbind, deleted_count. rewrite Hf. simpl.
    rewrite (delete_first_none _ _ Hf). now rewrite set_checklists_same.
Qed.

End Checklists.

(** ** The other routes on concrete requests *)

Module RouteExamples.
Import Demo.
#[local] Existing Instance demo_env.

(** A request the provider refuses, after ten replayed turns. *)
Lemma failed_call_is_last_and_reported_witness :
  truthy (EMERGENT_LLM_KEY (Env := demo_env)) = true /\
  forallb call_ok
    (calls_since long_world (snd (chat_with_ai (E := demo_env) failing long_world)))
    = false /\
  exists pre c,
    calls_since long_world (snd (chat_with_ai failing long_world))
      = (pre ++ [c])%list /\
    fst (chat_with_ai failing long_world)
      = Raise (mkHTTPException 500 "AI service error: provider down").
Proof.
  assert (Hf : forallb call_ok
                 (calls_since long_world
                    (snd (chat_with_ai (E := demo_env) failing long_world)))
               = false) by (vm_compute; reflexivity).
  split; [reflexivity|]. split; [exact Hf|].
  destruct (failed_call_is_last_and_reported (E := demo_env) failing long_world
              eq_refl Hf) as (pre & c & s & Hc & _ & _ & Hr).
  exists pre, c. split; [exact Hc|]. vm_compute. reflexivity.
Defined.

Lemma unconfigured_chat_fails_fast_witness :
  EMERGENT_LLM_KEY (Env := offline_env) = EmptyString /\
  fst (chat_with_ai (E := offline_env) hello offline_world)
    = Raise (mkHTTPException 500 "AI service not configured").
Proof.
  split; [reflexivity|].
  exact (proj1 (unconfigured_chat_fails_fast (E := offline_env) hello
                  offline_world eq_refl)).
Defined.

Lemma provider_session_settings_witness :
  In hello_call
     (calls_since empty_world (snd (chat_with_ai (E := demo_env) hello empty_world)))
  /\ api_key (fst hello_call) = "sk-demo" /\ model (fst hello_call) = "gpt-4o".
Proof.
  assert (Hin : In hello_call
                   (calls_since empty_world
                      (snd (chat_with_ai (E := demo_env) hello empty_world))))
    by (left; reflexivity).
  split; [exact Hin|].
  destruct (provider_session_settings (E := demo_env) hello empty_world
              hello_call Hin) as (Hk & _ & _ & Hm).
  split; [exact Hk|exact Hm].
Defined.



Lemma created_pet_can_be_fetched_witness :
  find (fun q => Pet_id q =? uuid4 (clock empty_world)) (pets empty_world) = None /\
  exists p w1 q,
    create_pet (X := HTTPException) new_cat empty_world = (Ok p, w1) /\
    get_pet "uuid-0" w1 = (Ok q, w1) /\
    name q = "Tom" /\ gender q = Some "male" /\ breed q = None.
Proof.
  split; [reflexivity|].
  destruct (created_pet_can_be_fetched (E := demo_env) new_cat empty_world
              eq_refl)
    as (p & w1 & q & Hc & Hid & _ & _ & _ & _ & _ & _ & _ & _ & _ & _ & _
        & Hg & _ & Hn & _ & _ & _ & Hb & _ & Hge & _).
  exists p, w1, q. split; [exact Hc|]. rewrite Hid in Hg.
  split; [exact Hg|]. split; [exact Hn|]. split; [exact Hge|exact Hb].
Defined.

Lemma update_pet_merges_witness :
  find (fun q => Pet_id q =? "p1") (pets empty_world) = Some rex /\
  exists p' w',
    update_pet "p1" rename empty_world = (Ok p', w') /\
    name p' = "Rexy" /\ birth_date p' = "2020-01-01" /\ Pet_id p' = "p1".
Proof.
  split; [reflexivity|].
  destruct (update_pet_merges (E := demo_env) "p1" rename empty_world rex eq_refl)
    as (p' & w' & Hu & Hid & _ & Hn & Hb & _).
  exists p', w'. repeat split; assumption.
Defined.

Lemma empty_update_changes_nothing_witness :
  find (fun q => Pet_id q =? "p1") (pets empty_world) = Some rex /\
  update_data_nonempty no_change = false /\
  update_pet "p1" no_change empty_world = (Ok rex, empty_world).
Proof.
  split; [reflexivity|]. split; [reflexivity|].
  exact (empty_update_changes_nothing (E := demo_env) "p1" no_change
           empty_world rex eq_refl eq_refl).
Defined.

(** Deleting Bun: her checklist, visit and reminder go, the chat turn
    about her stays. *)
Lemma delete_pet_cascades_witness :
  find (fun q => Pet_id q =? "p2") (pets (core clinic)) = Some bun /\
  ~ In bun_daily (checklists (snd (delete_pet "p2" clinic))) /\
  In rex_walk (reminders (snd (delete_pet "p2" clinic))) /\
  chat_messages (core (snd (delete_pet "p2" clinic))) = [bun_question].
Proof.
  split; [reflexivity|].
  destruct (delete_pet_cascades (E := demo_env) "p2" clinic bun eq_refl)
    as (_ & _ & _ & Hcl & _ & Hrm & Hcm).
  split; [|split].
  - intros Hin. apply Hcl in Hin as [_ Hne]. apply Hne. reflexivity.
  - apply Hrm. split; [left; reflexivity|discriminate].
  - exact Hcm.
Defined.

Lemma unknown_pet_is_404_witness :
  find (fun q => Pet_id q =? "nobody") (pets (core clinic)) = None /\
  delete_pet "nobody" clinic
    = (Raise (mkHTTPException 404 "Pet not found"), clinic).
Proof.
  split; [reflexivity|].
  exact (proj2 (proj2 (unknown_pet_is_404 (E := demo_env) "nobody" no_change
                         clinic eq_refl))).
Defined.

Lemma toggle_reminder_twice_restores_witness :
  find (fun x => rem_id x =? "r1") (reminders clinic) = Some rex_walk /\
  exists d1,
    toggle_reminder "r1" clinic = (Ok false, d1) /\
    toggle_reminder "r1" d1 = (Ok true, clinic).
Proof.
  split; [reflexivity|].
  destruct (toggle_reminder_twice_restores (E := demo_env) "r1" clinic rex_walk
              eq_refl) as (d1 & H1 & _ & H2).
  exists d1. split; assumption.
Defined.

Lemma update_reminder_keeps_identity_witness :
  find (fun x => rem_id x =? "r2") (reminders clinic) = Some bun_pill /\
  exists r' d',
    update_reminder "r2" evening_walk clinic = (Ok r', d') /\
    rem_id r' = "r2" /\ rem_description r' = None /\ is_active r' = true.
Proof.
  split; [reflexivity|].
  destruct (update_reminder_keeps_identity (E := demo_env) "r2" evening_walk
              clinic bun_pill eq_refl)
    as (r' & d' & Hu & Hid & Ha & _ & _ & _ & Hd & _).
  exists r', d'. repeat split; assumption.
Defined.

Lemma created_reminder_is_listed_witness :
  List.length (reminders clinic) < 100 /\
  exists r d1 l,
    create_reminder (X := HTTPException) evening_walk clinic = (Ok r, d1) /\
    get_reminders (X := HTTPException) (Some "p1") true d1 = (Ok l, d1) /\
    In r l.
Proof.
  assert (Hlt : List.length (reminders clinic) < 100) by (simpl; lia).
  split; [exact Hlt|].
  destruct (created_reminder_is_listed (E := demo_env) evening_walk clinic Hlt)
    as (r & d1 & l & Hc & _ & _ & _ & _ & Hg & Hin).
  exists r, d1, l. repeat split; assumption.
Defined.

Lemma delete_reminder_removes_one_witness :
  find (fun x => rem_id x =? "r1") (reminders clinic) = Some rex_walk /\
  exists d',
    delete_reminder "r1" clinic = (Ok "Reminder deleted", d') /\
    In bun_pill (reminders d') /\
    toggle_reminder "r1" d'
      = (Raise (mkHTTPException 404 "Reminder not found"), d').
Proof.
  split; [reflexivity|].
  destruct (delete_reminder_removes_one (E := demo_env) "r1" clinic rex_walk
              eq_refl)
    as (d' & Hd & _ & _ & Hk & _ & _ & _ & Hu).
  exists d'. split; [exact Hd|]. split.
  - apply Hk; [right; left; reflexivity|discriminate].
  - apply Hu. simpl. repeat constructor; simpl; intuition discriminate.
Defined.

Lemma unknown_reminder_is_404_witness :
  find (fun x => rem_id x =? "r9") (reminders clinic) = None /\
  toggle_reminder "r9" clinic
    = (Raise (mkHTTPException 404 "Reminder not found"), clinic).
Proof.
  split; [reflexivity|].
  exact (proj1 (unknown_reminder_is_404 (E := demo_env) "r9" evening_walk
                  clinic eq_refl)).
Defined.

(** Bun's checkup becomes a checklist of two unchecked items. *)
Lemma vet_instructions_become_checklist_witness :
  find (fun x => visit_id x =? "v1") (vet_visits clinic) = Some bun_checkup /\
  instructions bun_checkup <> [] /\
  exists c d',
    convert_vet_to_checklist "v1" clinic = (Ok c, d') /\
    cl_title c = "Vet Instructions - Checkup" /\
    map item_text (items c) = ["Trim nails"; "More hay"] /\
    cl_pet_id c = "p2".
Proof.
  assert (Hne : instructions bun_checkup <> []) by discriminate.
  split; [reflexivity|]. split; [exact Hne|].
  destruct (vet_instructions_become_checklist (E := demo_env) "v1" clinic
              bun_checkup eq_refl Hne)
    as (c & d' & Hc & Hp & Ht & _ & Hi & _).
  exists c, d'. repeat split; assumption.
Defined.

(** Rex's shots have no instructions: nothing to convert. *)
Example convert_without_instructions_example :
  convert_vet_to_checklist (E := demo_env) "v2" clinic
  = (Raise (mkHTTPException 400 "No instructions to convert"), clinic).
Proof. reflexivity. Qed.


Lemma unknown_vet_visit_is_404_witness :
  find (fun x => visit_id x =? "v9") (vet_visits clinic) = None /\
  get_vet_visit "v9" clinic
    = (Raise (mkHTTPException 404 "Vet visit not found"), clinic).
Proof.
  split; [reflexivity|].
  exact (proj1 (unknown_vet_visit_is_404 (E := demo_env) "v9" recheck clinic
                  eq_refl)).
Defined.

Lemma item_flag_is_set_witness :
  find (fun x => cl_id x =? "c1") (checklists clinic) = Some bun_daily /\
  find (fun x => item_id x =? "i2") (items bun_daily)
    = Some (mkChecklistItem "i2" "Brush" false None) /\
  exists c' d',
    toggle_checklist_item "c1" "i2" true clinic = (Ok true, d') /\
    get_checklist "c1" d' = (Ok c', d') /\
    items c' = [mkChecklistItem "i1" "Feed" false None;
                mkChecklistItem "i2" "Brush" true None].
Proof.
  split; [reflexivity|]. split; [reflexivity|].
  destruct (item_flag_is_set (E := demo_env) "c1" "i2" true clinic bun_daily
              (mkChecklistItem "i2" "Brush" false None) eq_refl eq_refl)
    as (c' & d' & pre & post & Ht & Hg & _).
  exists c', d'. split; [exact Ht|]. split; [exact Hg|].
  vm_compute in Ht. injection Ht as <-.
  vm_compute in Hg. injection Hg as <-. reflexivity.
Defined.


Lemma unknown_checklist_is_404_witness :
  find (fun x => cl_id x =? "c9") (checklists clinic) = None /\
  toggle_checklist_item "c9" "i1" true clinic
    = (Raise (mkHTTPException 404 "Checklist not found"), clinic).
Proof.
  split; [reflexivity|].
  exact (proj1 (proj2 (unknown_checklist_is_404 (E := demo_env) "c9" "i1" true
                         clinic eq_refl))).
Defined.

End RouteExamples.
